(** * A shallow embedding of [chessgpt/rules.py] and [chessgpt/board.py]

    The Python program manipulates [State] objects in place.  The embedding
    has two layers:
    - value level: functions that only read a state ([is_square_attacked],
      [in_check], [generate_pseudo_legal_moves]) take a [State] value, and
      [apply_move_st] computes the new contents of the object [apply_move]
      mutates;
    - object level: a heap of [State] objects with references ([loc]), on
      which [apply_move], [State.clone], [generate_legal_moves] and the
      [Board] session ([make_move], [undo_move]) are defined, so that the
      aliasing of the source (who mutates which object) is explicit.

    Python exceptions are the [Raise] branch of the [result] monad.  No
    function of the source catches an exception, so the contents of the
    heap after a raise are not modelled. *)

From Stdlib Require Import ZArith List String Ascii Bool Lia.
Import ListNotations.
Open Scope Z_scope.

(** ** Exceptions and the result monad *)

Inductive exn := ValueError | IndexError | AttributeError.

Inductive result (A : Type) : Type :=
| Ok (a : A)
| Raise (e : exn).
Arguments Ok {A} a.
Arguments Raise {A} e.

Definition bind {A B} (r : result A) (f : A -> result B) : result B :=
  match r with
  | Ok a => f a
  | Raise e => Raise e
  end.

Notation "'let*' x ':=' r 'in' f" := (bind r (fun x => f))
  (at level 200, x name, r at level 100, f at level 200).

(** Short-circuit [and] / [or] of Python, left to right. *)
Definition and_r (a : result bool) (b : result bool) : result bool :=
  let* x := a in if x then b else Ok false.
Definition or_r (a : result bool) (b : result bool) : result bool :=
  let* x := a in if x then Ok true else b.

(** [any(f(x) for x in l)] written as a [for] loop with an early
    [return True]. *)
Fixpoint any_r {A} (f : A -> result bool) (l : list A) : result bool :=
  match l with
  | [] => Ok false
  | x :: t => or_r (f x) (any_r f t)
  end.

(** Concatenating the moves a loop body appends. *)
Fixpoint concat_r {A B} (f : A -> result (list B)) (l : list A)
  : result (list B) :=
  match l with
  | [] => Ok []
  | x :: t => let* a := f x in let* b := concat_r f t in Ok (a ++ b)
  end.

(** ** Python lists indexed by a (possibly negative) [int] *)

Definition py_norm (len : nat) (i : Z) : option nat :=
  if (0 <=? i) && (i <? Z.of_nat len) then Some (Z.to_nat i)
  else if (- Z.of_nat len <=? i) && (i <? 0) then Some (Z.to_nat (Z.of_nat len + i))
  else None.

(** [l[i]] *)
Definition py_get {A} (l : list A) (i : Z) : result A :=
  match py_norm (List.length l) i with
  | Some k => match nth_error l k with Some x => Ok x | None => Raise IndexError end
  | None => Raise IndexError
  end.

Fixpoint replace_nth {A} (l : list A) (k : nat) (v : A) : list A :=
  match l, k with
  | [], _ => []
  | _ :: t, O => v :: t
  | x :: t, S k' => x :: replace_nth t k' v
  end.

(** [l[i] = v] *)
Definition py_set {A} (l : list A) (i : Z) (v : A) : result (list A) :=
  match py_norm (List.length l) i with
  | Some k => Ok (replace_nth l k v)
  | None => Raise IndexError
  end.

(** ** Characters and strings *)

Definition chr (n : nat) : ascii := ascii_of_nat n.

Definition is_upper (c : ascii) : bool :=
  let n := nat_of_ascii c in Nat.leb 65 n && Nat.leb n 90.
Definition is_lower (c : ascii) : bool :=
  let n := nat_of_ascii c in Nat.leb 97 n && Nat.leb n 122.
Definition lower (c : ascii) : ascii :=
  if is_upper c then chr (nat_of_ascii c + 32) else c.
Definition upper (c : ascii) : ascii :=
  if is_lower c then chr (nat_of_ascii c - 32) else c.

(** [str.isdigit] on one (ASCII) character. *)
Definition is_digit (c : ascii) : bool :=
  let n := nat_of_ascii c in Nat.leb 48 n && Nat.leb n 57.
Definition digit_val (c : ascii) : Z := Z.of_nat (nat_of_ascii c) - 48.

(** [str.isspace] on one ASCII character. *)
Definition is_space (c : ascii) : bool :=
  let n := nat_of_ascii c in
  (Nat.leb 9 n && Nat.leb n 13) || (Nat.leb 28 n && Nat.leb n 32).

(** [s[i]] for a non-negative index. *)
Definition str_get (s : string) (i : nat) : result ascii :=
  match String.get i s with Some c => Ok c | None => Raise IndexError end.

(** [s.index(c)] for a one-character [c]. *)
Fixpoint str_find (s : string) (c : ascii) : result Z :=
  match s with
  | EmptyString => Raise ValueError
  | String x t =>
      if Ascii.eqb x c then Ok 0 else let* k := str_find t c in Ok (k + 1)
  end.

(** [s.split(sep)] for a one-character separator: empty pieces kept. *)
Fixpoint split_on (sep : ascii) (s : string) : list string :=
  match s with
  | EmptyString => [EmptyString]
  | String c t =>
      if Ascii.eqb c sep then EmptyString :: split_on sep t
      else match split_on sep t with
           | [] => [String c EmptyString]
           | w :: ws => String c w :: ws
           end
  end.

(** [s.split()]: runs of whitespace separate, empty pieces dropped. *)
Fixpoint split_ws_aux (cur : list ascii) (l : list ascii) : list string :=
  match l with
  | [] => match cur with [] => [] | _ => [string_of_list_ascii (rev cur)] end
  | c :: t =>
      if is_space c then
        match cur with
        | [] => split_ws_aux [] t
        | _ => string_of_list_ascii (rev cur) :: split_ws_aux [] t
        end
      else split_ws_aux (c :: cur) t
  end.
Definition split_ws (s : string) : list string :=
  split_ws_aux [] (list_ascii_of_string s).

(** [int(s)] on a [str]: surrounding whitespace, an optional sign, then
    decimal digits with single underscores between digits. *)
Fixpoint py_int_digits (l : list ascii) (acc : Z) (seen prev_us : bool)
  : option Z :=
  match l with
  | [] => if seen && negb prev_us then Some acc else None
  | c :: t =>
      if is_digit c then py_int_digits t (acc * 10 + digit_val c) true false
      else if Ascii.eqb c "_"%char then
        if seen && negb prev_us then py_int_digits t acc seen true else None
      else None
  end.

Definition strip_list (l : list ascii) : list ascii :=
  let drop := fix drop (l : list ascii) :=
    match l with
    | c :: t => if is_space c then drop t else l
    | [] => []
    end in
  rev (drop (rev (drop l))).

Definition py_int (s : string) : result Z :=
  let r :=
    match strip_list (list_ascii_of_string s) with
    | c :: t =>
        if Ascii.eqb c "-"%char then option_map Z.opp (py_int_digits t 0 false false)
        else if Ascii.eqb c "+"%char then py_int_digits t 0 false false
        else py_int_digits (c :: t) 0 false false
    | [] => None
    end in
  match r with Some z => Ok z | None => Raise ValueError end.

(** ** Squares and moves *)

Definition FILES : string := "abcdefgh".
Definition RANKS : string := "12345678".

(** [square_index(s)]: [FILES.index(s[0])], [8 - int(s[1])]. *)
Definition square_index (s : string) : result Z :=
  let* c0 := str_get s 0 in
  let* file := str_find FILES c0 in
  let* c1 := str_get s 1 in
  let* d := py_int (String c1 EmptyString) in
  let rank := 8 - d in
  Ok (rank * 8 + file).

(** [index_to_square(idx)]: [FILES[idx % 8] + RANKS[7 - idx // 8]], with
    Python's floor division and modulo and its negative string indices. *)
Definition index_to_square (idx : Z) : result string :=
  let* f := py_get (list_ascii_of_string FILES) (idx mod 8) in
  let* r := py_get (list_ascii_of_string RANKS) (7 - idx / 8) in
  Ok (String f (String r EmptyString)).

(** [Move] is a frozen dataclass; its promotion is one character (the
    fifth character of a UCI text or one of ['qrbn']). *)
Record Move := mkMove {
  from_sq : Z;
  to_sq : Z;
  promotion : option ascii
}.

Definition opt_eqb {A} (eqb : A -> A -> bool) (x y : option A) : bool :=
  match x, y with
  | Some a, Some b => eqb a b
  | None, None => true
  | _, _ => false
  end.

(** Dataclass equality: all fields equal. *)
Definition move_eqb (m1 m2 : Move) : bool :=
  (from_sq m1 =? from_sq m2) && (to_sq m1 =? to_sq m2)
  && opt_eqb Ascii.eqb (promotion m1) (promotion m2).

(** [Move.from_uci(uci)] *)
Definition from_uci (uci : string) : result Move :=
  let promo := match String.get 4 uci with Some c => Some c | None => None end in
  let* f := square_index (substring 0 2 uci) in
  let* t := square_index (substring 2 2 uci) in
  Ok (mkMove f t promo).

(** [Move.to_uci()]: [base + (self.promotion or '')]. *)
Definition to_uci (m : Move) : result string :=
  let* a := index_to_square (from_sq m) in
  let* b := index_to_square (to_sq m) in
  let base := (a ++ b)%string in
  Ok (base ++ match promotion m with Some c => String c EmptyString | None => EmptyString end)%string.

(** ** Positions *)

(** [to_move] holds ['w'] or ['b']: [State.from_fen] maps every text other
    than ['w'] to ['b'] and [opposite] only returns these two. *)
Inductive color := W | B.

Definition color_eqb (a b : color) : bool :=
  match a, b with W, W | B, B => true | _, _ => false end.

(** [opposite(color)] *)
Definition opposite (c : color) : color := match c with W => B | B => W end.

(** The [castling_rights] field holds a Python [set] of characters (after
    [State.from_fen] and [State.clone]) or a [str] (after [apply_move]);
    the code only ever tests membership ([c in rights]) or rebuilds a set
    from it. *)
Inductive rights := RSet (l : list ascii) | RStr (s : string).

(** [set(rights)] as a list of its characters. *)
Definition rights_elems (r : rights) : list ascii :=
  match r with RSet l => l | RStr s => list_ascii_of_string s end.

Definition mem (c : ascii) (l : list ascii) : bool := existsb (Ascii.eqb c) l.

(** [c in state.castling_rights] *)
Definition rights_mem (c : ascii) (r : rights) : bool := mem c (rights_elems r).

(** The [State] dataclass.  Its [history] field is [[]] on every state the
    program builds and is read by nobody; it is left out.  A board cell is
    [None] or a one-character piece letter. *)
Record State := mkState {
  board : list (option ascii);
  to_move : color;
  castling_rights : rights;
  en_passant : option Z;
  halfmove_clock : Z;
  fullmove_number : Z
}.

(** The placement field: [for row in board_part.split('/'): for ch in row]. *)
Fixpoint fen_row (l : list ascii) : result (list (option ascii)) :=
  match l with
  | [] => Ok []
  | ch :: t =>
      let* here :=
        if is_digit ch then
          let* n := py_int (String ch EmptyString) in
          Ok (repeat None (Z.to_nat n))
        else Ok [Some ch] in
      let* rest := fen_row t in
      Ok (here ++ rest)
  end.

Definition fen_board (board_part : string) : result (list (option ascii)) :=
  concat_r (fun row => fen_row (list_ascii_of_string row)) (split_on "/"%char board_part).

(** [State.from_fen(fen)] *)
Definition from_fen (fen : string) : result State :=
  match split_ws fen with
  | [board_part; active; castling; ep; halfmove; fullmove] =>
      let* b := fen_board board_part in
      let r := if String.eqb castling "-" then RSet [] else RSet (list_ascii_of_string castling) in
      let* ep_sq :=
        if String.eqb ep "-" then Ok None
        else let* s := square_index ep in Ok (Some s) in
      let* hm := py_int halfmove in
      let* fm := py_int fullmove in
      Ok (mkState b (if String.eqb active "w" then W else B) r ep_sq hm fm)
  | _ => Raise ValueError   (* tuple unpacking of the wrong length *)
  end.

(** [color_of(piece)] *)
Definition color_of (p : ascii) : color := if is_upper p then W else B.

(** [piece.lower() == k] *)
Definition kind_is (p : ascii) (k : ascii) : bool := Ascii.eqb (lower p) k.

(** [piece_at(state, row, col)] *)
Definition piece_at (st : State) (r c : Z) : result (option ascii) :=
  py_get (board st) (r * 8 + c).

Definition in_range (r c : Z) : bool := (0 <=? r) && (r <? 8) && (0 <=? c) && (c <? 8).

(** ** Attack detection *)

Definition KNIGHT_OFFSETS : list (Z * Z) :=
  [(-2, -1); (-2, 1); (-1, -2); (-1, 2); (1, -2); (1, 2); (2, -1); (2, 1)].
Definition BISHOP_OFFSETS : list (Z * Z) := [(-1, -1); (-1, 1); (1, -1); (1, 1)].
Definition ROOK_OFFSETS : list (Z * Z) := [(-1, 0); (1, 0); (0, -1); (0, 1)].
Definition KING_OFFSETS : list (Z * Z) :=
  [(-1, -1); (-1, 0); (-1, 1); (0, -1); (0, 1); (1, -1); (1, 0); (1, 1)].

(** Fuel for the [while 0 <= r < 8 and 0 <= c < 8] ray walks: every step
    moves one row or one column, so a walk stays on the board for at most
    eight iterations and the fuel [8] is never exhausted. *)
Definition RAY_FUEL : nat := 8.

(** One ray of the bishop/queen or rook/queen loop of [is_square_attacked]:
    [True] on an attacker slider, [break] on any other piece. *)
Fixpoint ray_attacks (st : State) (attacker : color) (kinds : list ascii)
    (dr dc : Z) (fuel : nat) (r c : Z) : result bool :=
  match fuel with
  | O => Ok false
  | S fuel' =>
      if in_range r c then
        let* piece := py_get (board st) (r * 8 + c) in
        match piece with
        | Some p => Ok (color_eqb (color_of p) attacker && mem (lower p) kinds)
        | None => ray_attacks st attacker kinds dr dc fuel' (r + dr) (c + dc)
        end
      else Ok false
  end.

(** One offset of the knight or king loop. *)
Definition jump_attacks (st : State) (attacker : color) (k : ascii)
    (row col : Z) (d : Z * Z) : result bool :=
  let r := row + fst d in
  let c := col + snd d in
  if in_range r c then
    let* piece := py_get (board st) (r * 8 + c) in
    match piece with
    | Some p => Ok (kind_is p k && color_eqb (color_of p) attacker)
    | None => Ok false
    end
  else Ok false.

(** [is_square_attacked(state, row, col, attacker)] *)
Definition is_square_attacked (st : State) (row col : Z) (attacker : color)
  : result bool :=
  let directions := match attacker with W => [(-1, -1); (-1, 1)] | B => [(1, -1); (1, 1)] end in
  let pawn := match attacker with W => "P"%char | B => "p"%char end in
  or_r
    (any_r (fun d =>
       let r := row + fst d in
       let c := col + snd d in
       if in_range r c then
         let* x := py_get (board st) (r * 8 + c) in
         Ok (opt_eqb Ascii.eqb x (Some pawn))
       else Ok false) directions)
  (or_r (any_r (jump_attacks st attacker "n"%char row col) KNIGHT_OFFSETS)
  (or_r (any_r (fun d => ray_attacks st attacker ["b"; "q"]%char (fst d) (snd d)
                           RAY_FUEL (row + fst d) (col + snd d)) BISHOP_OFFSETS)
  (or_r (any_r (fun d => ray_attacks st attacker ["r"; "q"]%char (fst d) (snd d)
                           RAY_FUEL (row + fst d) (col + snd d)) ROOK_OFFSETS)
        (any_r (jump_attacks st attacker "k"%char row col) KING_OFFSETS)))).

(** [king_position(state, color)]: the first cell holding the king. *)
Fixpoint find_piece (l : list (option ascii)) (target : ascii) (idx : Z)
  : option Z :=
  match l with
  | [] => None
  | x :: t =>
      if opt_eqb Ascii.eqb x (Some target) then Some idx else find_piece t target (idx + 1)
  end.

Definition king_position (st : State) (c : color) : option (Z * Z) :=
  let target := match c with W => "K"%char | B => "k"%char end in
  match find_piece (board st) target 0 with
  | Some idx => Some (idx / 8, idx mod 8)
  | None => None
  end.

(** [in_check(state, color)] *)
Definition in_check (st : State) (c : color) : result bool :=
  match king_position st c with
  | None => Ok false
  | Some (r, col) => is_square_attacked st r col (opposite c)
  end.

(** ** Pseudo-legal move generation *)

(** [add_move(moves, from_sq, to_sq)] without promotion. *)
Definition plain (f t : Z) : Move := mkMove f t None.

(** [for p in 'qrbn': add_move(moves, from_sq, to_sq, p)] *)
Definition promos (f t : Z) : list Move :=
  map (fun p => mkMove f t (Some p)) ["q"; "r"; "b"; "n"]%char.

Definition is_empty_at (st : State) (r c : Z) : result bool :=
  let* x := piece_at st r c in Ok (match x with None => true | Some _ => false end).

(** [all(...)] written as a chain of [and]. *)
Fixpoint all_r {A} (f : A -> result bool) (l : list A) : result bool :=
  match l with
  | [] => Ok true
  | x :: t => and_r (f x) (all_r f t)
  end.

Definition pawn_moves (st : State) (color : color) (idx row col : Z)
  : result (list Move) :=
  let dir := match color with W => -1 | B => 1 end in
  let start := match color with W => 6 | B => 1 end in
  let promo_row := match color with W => 0 | B => 7 end in
  (* one forward, then double *)
  let r := row + dir in
  let* forward :=
    let* free := and_r (Ok ((0 <=? r) && (r <? 8))) (is_empty_at st r col) in
    if free then
      let single :=
        if r =? promo_row then promos idx (r * 8 + col) else [plain idx (r * 8 + col)] in
      let* dbl := and_r (Ok (row =? start)) (is_empty_at st (r + dir) col) in
      Ok (single ++ if dbl then [plain idx ((r + dir) * 8 + col)] else [])
    else Ok [] in
  (* captures *)
  let* captures :=
    concat_r (fun dc =>
      let c := col + dc in
      let r := row + dir in
      let ep_branch :=
        if opt_eqb Z.eqb (en_passant st) (Some (r * 8 + c))
        then [plain idx (r * 8 + c)] else [] in
      if in_range r c then
        let* target := piece_at st r c in
        match target with
        | Some t =>
            if negb (color_eqb (color_of t) color) then
              Ok (if r =? promo_row then promos idx (r * 8 + c) else [plain idx (r * 8 + c)])
            else Ok ep_branch
        | None => Ok ep_branch
        end
      else Ok []) [-1; 1] in
  Ok (forward ++ captures).

(** One offset of the knight or king loop of the generator. *)
Definition jump_move (st : State) (color : color) (idx row col : Z) (d : Z * Z)
  : result (list Move) :=
  let r := row + fst d in
  let c := col + snd d in
  if in_range r c then
    let* target := piece_at st r c in
    match target with
    | None => Ok [plain idx (r * 8 + c)]
    | Some t =>
        Ok (if negb (color_eqb (color_of t) color) then [plain idx (r * 8 + c)] else [])
    end
  else Ok [].

(** One ray of the bishop, rook or queen loop of the generator. *)
Fixpoint slide_moves (st : State) (color : color) (idx : Z) (dr dc : Z)
    (fuel : nat) (r c : Z) : result (list Move) :=
  match fuel with
  | O => Ok []
  | S fuel' =>
      if in_range r c then
        let* target := piece_at st r c in
        match target with
        | Some t =>
            Ok (if negb (color_eqb (color_of t) color) then [plain idx (r * 8 + c)] else [])
        | None =>
            let* rest := slide_moves st color idx dr dc fuel' (r + dr) (c + dc) in
            Ok (plain idx (r * 8 + c) :: rest)
        end
      else Ok []
  end.

Definition slider_moves (st : State) (color : color) (idx row col : Z)
    (offsets : list (Z * Z)) : result (list Move) :=
  concat_r (fun d => slide_moves st color idx (fst d) (snd d) RAY_FUEL
                        (row + fst d) (col + snd d)) offsets.

(** One of the four castling blocks of the king case: the right [flag],
    the squares that must be empty, the squares the opponent must not
    attack, the rook that must stand on [rook_col], and the king's
    destination column. *)
Definition castle_move (st : State) (color : color) (idx row : Z)
    (flag : ascii) (empties safe : list Z) (rook_col : Z) (rook : ascii)
    (dest_col : Z) : result (list Move) :=
  if rights_mem flag (castling_rights st) then
    let* free := all_r (is_empty_at st row) empties in
    if free then
      let* ok :=
        and_r (let* chk := in_check st color in Ok (negb chk))
       (and_r (all_r (fun c => let* a := is_square_attacked st row c (opposite color) in
                               Ok (negb a)) safe)
              (let* x := piece_at st row rook_col in Ok (opt_eqb Ascii.eqb x (Some rook)))) in
      Ok (if ok then [plain idx (row * 8 + dest_col)] else [])
    else Ok []
  else Ok [].

Definition king_moves (st : State) (color : color) (idx row col : Z)
  : result (list Move) :=
  let* steps := concat_r (jump_move st color idx row col) KING_OFFSETS in
  let* white :=
    if color_eqb color W && (row =? 7) && (col =? 4) then
      let* ks := castle_move st W idx 7 "K" [5; 6] [5; 6] 7 "R" 6 in
      let* qs := castle_move st W idx 7 "Q" [3; 2; 1] [3; 2] 0 "R" 2 in
      Ok (ks ++ qs)
    else Ok [] in
  let* black :=
    if color_eqb color B && (row =? 0) && (col =? 4) then
      let* ks := castle_move st B idx 0 "k" [5; 6] [5; 6] 7 "r" 6 in
      let* qs := castle_move st B idx 0 "q" [3; 2; 1] [3; 2] 0 "r" 2 in
      Ok (ks ++ qs)
    else Ok [] in
  Ok (steps ++ white ++ black).

(** The body of the [for idx, piece in enumerate(state.board)] loop. *)
Definition piece_moves (st : State) (color : color) (idx : Z) (p : ascii)
  : result (list Move) :=
  let row := idx / 8 in
  let col := idx mod 8 in
  if kind_is p "p" then pawn_moves st color idx row col
  else if kind_is p "n" then concat_r (jump_move st color idx row col) KNIGHT_OFFSETS
  else if kind_is p "b" then slider_moves st color idx row col BISHOP_OFFSETS
  else if kind_is p "r" then slider_moves st color idx row col ROOK_OFFSETS
  else if kind_is p "q" then slider_moves st color idx row col (BISHOP_OFFSETS ++ ROOK_OFFSETS)
  else if kind_is p "k" then king_moves st color idx row col
  else Ok [].

Fixpoint pseudo_loop (st : State) (color : color) (cells : list (option ascii)) (idx : Z)
  : result (list Move) :=
  match cells with
  | [] => Ok []
  | cell :: rest =>
      let* here :=
        match cell with
        | Some p => if color_eqb (color_of p) color then piece_moves st color idx p else Ok []
        | None => Ok []
        end in
      let* more := pseudo_loop st color rest (idx + 1) in
      Ok (here ++ more)
  end.

(** [generate_pseudo_legal_moves(state)] *)
Definition generate_pseudo_legal_moves (st : State) : result (list Move) :=
  pseudo_loop st (to_move st) (board st) 0.

(** ** Move application, value level *)

(** [rights.discard(c)] on the set [rights]. *)
Definition discard (c : ascii) (l : list ascii) : list ascii :=
  filter (fun x => negb (Ascii.eqb x c)) l.

(** The [if sq == 7*8+0: ... elif ...] chain, the same for the rook-move
    test (on [from_sq]) and the rook-capture test (on [to_sq]). *)
Definition discard_home (sq : Z) (rights : list ascii) : list ascii :=
  if sq =? 56 then discard "Q" rights
  else if sq =? 63 then discard "K" rights
  else if sq =? 0 then discard "q" rights
  else if sq =? 7 then discard "k" rights
  else rights.

(** The condition under which [apply_move] treats a move as an en-passant
    capture, given the moving piece and the destination cell. *)
Definition ep_capture_cond (st : State) (m : Move) (p : ascii) (dest : option ascii) : bool :=
  kind_is p "p" && opt_eqb Z.eqb (Some (to_sq m)) (en_passant st)
  && match dest with None => true | Some _ => false end.

(** [''.join(c for c in "KQkq" if c in rights)] *)
Definition rights_string (rights : list ascii) : string :=
  string_of_list_ascii (filter (fun c => mem c rights) (list_ascii_of_string "KQkq")).

(** The new contents of the [State] object that [apply_move(state, move)]
    mutates: the writes to [board] in source order, then the fields. *)
Definition apply_move_st (st : State) (m : Move) : result State :=
  let b0 := board st in
  let* piece := py_get b0 (from_sq m) in
  let rights0 := rights_elems (castling_rights st) in
  let row_from := from_sq m / 8 in
  let col_from := from_sq m mod 8 in
  let row_to := to_sq m / 8 in
  let col_to := to_sq m mod 8 in
  let* dest := py_get b0 (to_sq m) in
  let capture0 := match dest with Some _ => true | None => false end in
  (* [piece.lower()] raises on an empty origin *)
  let* p := match piece with Some p => Ok p | None => Raise AttributeError end in
  (* en passant capture *)
  let ep_cap := ep_capture_cond st m p dest in
  let* b1 :=
    if ep_cap then
      match to_move st with
      | W => py_set b0 ((row_to + 1) * 8 + col_to) None
      | B => py_set b0 ((row_to - 1) * 8 + col_to) None
      end
    else Ok b0 in
  let capture := capture0 || ep_cap in
  (* move piece *)
  let* b2 := py_set b1 (from_sq m) None in
  let* b3 := py_set b2 (to_sq m) piece in
  (* promotion: [move.promotion.upper() if state.to_move == 'w'
     else move.promotion.lower() if move.promotion else piece] *)
  let* b4 :=
    if kind_is p "p" then
      let end_row := match to_move st with W => 0 | B => 7 end in
      if row_to =? end_row then
        let* v :=
          match to_move st with
          | W => match promotion m with
                 | Some c => Ok (Some (upper c))
                 | None => Raise AttributeError
                 end
          | B => Ok (match promotion m with Some c => Some (lower c) | None => piece end)
          end in
        py_set b3 (to_sq m) v
      else Ok b3
    else Ok b3 in
  (* castling move: move rook *)
  let* b5 :=
    if kind_is p "k" && (Z.abs (col_to - col_from) =? 2) then
      let rook_from := if col_to =? 6 then row_from * 8 + 7 else row_from * 8 + 0 in
      let rook_to := if col_to =? 6 then row_from * 8 + 5 else row_from * 8 + 3 in
      let* rk := py_get b4 rook_from in
      let* b := py_set b4 rook_to rk in
      py_set b rook_from None
    else Ok b4 in
  (* update castling rights *)
  let rights1 :=
    if kind_is p "k" then
      match to_move st with
      | W => discard "Q" (discard "K" rights0)
      | B => discard "q" (discard "k" rights0)
      end
    else rights0 in
  (* rook movement affects rights *)
  let rights2 := if kind_is p "r" then discard_home (from_sq m) rights1 else rights1 in
  (* capture rook affects rights *)
  let rights3 := if capture then discard_home (to_sq m) rights2 else rights2 in
  let mover := to_move st in
  (* en passant square *)
  let ep :=
    if kind_is p "p" && (Z.abs (row_to - row_from) =? 2)
    then Some (((row_from + row_to) / 2) * 8 + col_to) else None in
  (* halfmove clock *)
  let hm := if kind_is p "p" || capture then 0 else halfmove_clock st + 1 in
  (* fullmove number *)
  let fm := match mover with B => fullmove_number st + 1 | W => fullmove_number st end in
  Ok (mkState b5 (opposite (to_move st)) (RStr (rights_string rights3)) ep hm fm).

(** ** The heap of [State] objects *)

Definition loc := nat.

Record heap := mkHeap { objs : loc -> State; next : loc }.

Definition empty_heap : heap :=
  mkHeap (fun _ => mkState [] W (RSet []) None 0 0) O.

(** [obj.field = ...] on the object at [l]. *)
Definition store (h : heap) (l : loc) (st : State) : heap :=
  mkHeap (fun k => if Nat.eqb k l then st else objs h k) (next h).

(** A fresh object. *)
Definition alloc (h : heap) (st : State) : heap * loc :=
  (mkHeap (fun k => if Nat.eqb k (next h) then st else objs h k) (S (next h)), next h).

(** [State.clone]: a fresh object; [board[:]] and [set(castling_rights)]
    are copies. *)
Definition clone_st (st : State) : State :=
  mkState (board st) (to_move st) (RSet (rights_elems (castling_rights st)))
    (en_passant st) (halfmove_clock st) (fullmove_number st).

Definition clone (h : heap) (l : loc) : heap * loc := alloc h (clone_st (objs h l)).

(** [apply_move(state, move)]: mutates the object [state] refers to.  The
    local [board] is [state.board], a list no other object shares
    ([from_fen] and [clone] build fresh lists). *)
Definition apply_move (h : heap) (l : loc) (m : Move) : result heap :=
  let* st' := apply_move_st (objs h l) m in Ok (store h l st').

(** The [for mv in generate_pseudo_legal_moves(state)] loop of
    [generate_legal_moves]: [tmp = state.clone()], [apply_move(tmp, mv)],
    keep [mv] unless [in_check(tmp, opposite(tmp.to_move))]. *)
Fixpoint legal_loop (h : heap) (l : loc) (mvs : list Move) : result (heap * list Move) :=
  match mvs with
  | [] => Ok (h, [])
  | mv :: rest =>
      let (h1, tmp) := clone h l in
      let* h2 := apply_move h1 tmp mv in
      let t := objs h2 tmp in
      let* chk := in_check t (opposite (to_move t)) in
      let* r := legal_loop h2 l rest in
      Ok (fst r, if chk then snd r else mv :: snd r)
  end.

(** [generate_legal_moves(state)] *)
Definition generate_legal_moves (h : heap) (l : loc) : result (heap * list Move) :=
  let* ps := generate_pseudo_legal_moves (objs h l) in
  legal_loop h l ps.

(** [is_checkmate(state)] and [is_stalemate(state)]; the temporaries
    [generate_legal_moves] allocates are unreachable afterwards. *)
Definition is_checkmate (h : heap) (l : loc) : result bool :=
  let st := objs h l in
  let* chk := in_check st (to_move st) in
  if chk then let* r := generate_legal_moves h l in Ok (match snd r with [] => true | _ => false end)
  else Ok false.

Definition is_stalemate (h : heap) (l : loc) : result bool :=
  let st := objs h l in
  let* chk := in_check st (to_move st) in
  if negb chk then let* r := generate_legal_moves h l in Ok (match snd r with [] => true | _ => false end)
  else Ok false.

(** [is_draw_by_fifty_moves(state)] *)
Definition is_draw_by_fifty_moves (st : State) : bool := 100 <=? halfmove_clock st.

(** [is_insufficient_material(state)]: the occupied cells, then their
    lower-cased letters other than ['k'], then the tests
    [not pieces] and [pieces in (['n'], ['b'])]. *)
Definition is_insufficient_material (st : State) : bool :=
  let pieces := flat_map (fun x => match x with Some p => [p] | None => [] end) (board st) in
  let pieces := map lower (filter (fun p => negb (Ascii.eqb (lower p) "k")) pieces) in
  match pieces with
  | [] => true
  | _ => if in_dec (list_eq_dec ascii_dec) pieces [["n"]; ["b"]]%char then true else false
  end.

(** ** The [Board] session of [board.py] *)

Record Board := mkBoard { b_state : loc; b_history : list loc }.

Definition DEFAULT_FEN : string := "rnbqkbnr/pppppppp/8/8/8/8/PPPPPPPP/RNBQKBNR w KQkq - 0 1".

(** [Board.__init__(fen)]: [fen or DEFAULT_FEN]. *)
Definition board_init (h : heap) (fen : option string) : result (heap * Board) :=
  let f := match fen with
           | Some s => if String.eqb s "" then DEFAULT_FEN else s
           | None => DEFAULT_FEN
           end in
  let* st := from_fen f in
  let (h1, l) := alloc h st in
  Ok (h1, mkBoard l []).

(** [Board.make_move(move)] *)
Definition make_move (h : heap) (b : Board) (m : Move) : result (heap * Board) :=
  let* r := generate_legal_moves h (b_state b) in
  if existsb (move_eqb m) (snd r) then
    let (h1, c) := clone (fst r) (b_state b) in
    let* h2 := apply_move h1 (b_state b) m in
    Ok (h2, mkBoard (b_state b) (b_history b ++ [c]))
  else Raise ValueError.

(** [Board.undo_move()]: [self.state = self.history.pop()]. *)
Definition undo_move (h : heap) (b : Board) : result (heap * Board) :=
  match rev (b_history b) with
  | [] => Raise ValueError
  | c :: rest => Ok (h, mkBoard c (rev rest))
  end.

(** ** Derived notions used by the statements *)

(** A sequence of [apply_move] calls on one object. *)
Fixpoint apply_seq (st : State) (ms : list Move) : result State :=
  match ms with
  | [] => Ok st
  | m :: t => let* s := apply_move_st st m in apply_seq s t
  end.

(** The test of [apply_move] for setting the en-passant target, and the
    square it sets. *)
Definition is_double_push (p : ascii) (m : Move) : bool :=
  kind_is p "p" && (Z.abs (to_sq m / 8 - from_sq m / 8) =? 2).
Definition jumped_square (m : Move) : Z :=
  ((from_sq m / 8 + to_sq m / 8) / 2) * 8 + to_sq m mod 8.

(** The castling flag of a rook home square: a1, h1, a8, h8. *)
Definition home_flag (sq : Z) : option ascii :=
  if sq =? 56 then Some "Q"%char
  else if sq =? 63 then Some "K"%char
  else if sq =? 0 then Some "q"%char
  else if sq =? 7 then Some "k"%char
  else None.

(** Every field of two positions equal, the castling rights compared as
    sets. *)
Definition same_position (s1 s2 : State) : Prop :=
  board s1 = board s2 /\ to_move s1 = to_move s2 /\
  (forall c, rights_mem c (castling_rights s1) = rights_mem c (castling_rights s2)) /\
  en_passant s1 = en_passant s2 /\ halfmove_clock s1 = halfmove_clock s2 /\
  fullmove_number s1 = fullmove_number s2.

(** The position a FEN text describes, for concrete statements. *)
Definition fen_state (fen : string) : State :=
  match from_fen fen with Ok s => s | Raise _ => mkState [] W (RSet []) None 0 0 end.

(** [n] successive [Board.undo_move()] calls. *)
Fixpoint undo_n (h : heap) (b : Board) (n : nat) : result (heap * Board) :=
  match n with
  | O => Ok (h, b)
  | S n' => let* r := undo_n h b n' in undo_move (fst r) (snd r)
  end.

(** Successive [Board.make_move(m)] calls. *)
Fixpoint make_moves (h : heap) (b : Board) (ms : list Move) : result (heap * Board) :=
  match ms with
  | [] => Ok (h, b)
  | m :: t => let* r := make_move h b m in make_moves (fst r) (snd r) t
  end.

(** A 64-cell board holding the single piece [p] on cell [k]. *)
Definition lone_board (k : Z) (p : ascii) : list (option ascii) :=
  map (fun i => if Z.of_nat i =? k then Some p else None) (seq 0 64).

(** * Proofs *)

(** ** Heap lemmas *)

Lemma objs_store_same h l st : objs (store h l st) l = st.
Proof. unfold store; simpl. now rewrite Nat.eqb_refl. Qed.

Lemma objs_store_other h l st k : k <> l -> objs (store h l st) k = objs h k.
Proof. intros Hk. unfold store; simpl. now apply Nat.eqb_neq in Hk as ->. Qed.

Lemma objs_alloc_other h st k : k <> next h -> objs (fst (alloc h st)) k = objs h k.
Proof. intros Hk. unfold alloc; simpl. now apply Nat.eqb_neq in Hk as ->. Qed.

Lemma objs_alloc_new h st : objs (fst (alloc h st)) (next h) = st.
Proof. unfold alloc; simpl. now rewrite Nat.eqb_refl. Qed.

Lemma apply_move_inv h l m h' :
  apply_move h l m = Ok h' ->
  exists st', apply_move_st (objs h l) m = Ok st' /\ h' = store h l st'.
Proof.
  unfold apply_move. destruct (apply_move_st (objs h l) m) as [st'|e]; simpl; intro E.
  - inversion E; eauto.
  - discriminate.
Qed.

(** [apply_move_st] reads the castling rights only through [set(...)], so
    a clone moves like the original. *)
Lemma apply_move_st_clone st m : apply_move_st (clone_st st) m = apply_move_st st m.
Proof. reflexivity. Qed.

Lemma opposite_involutive c : opposite (opposite c) = c.
Proof. now destruct c. Qed.

(** ** The legality filter *)

(** A candidate survives the filter: applied to (a clone of) [st], it
    leaves the side that just moved out of check. *)
Definition keeps (st : State) (m : Move) : Prop :=
  exists st', apply_move_st st m = Ok st' /\ in_check st' (opposite (to_move st')) = Ok false.

Lemma clone_eq h l : clone h l = (fst (alloc h (clone_st (objs h l))), next h).
Proof. reflexivity. Qed.

(** One iteration: the clone goes to the fresh object [next h]. *)
Lemma legal_loop_step h l mv rest r :
  (l < next h)%nat ->
  legal_loop h l (mv :: rest) = Ok r ->
  exists st' chk r',
    apply_move_st (objs h l) mv = Ok st' /\
    in_check st' (opposite (to_move st')) = Ok chk /\
    legal_loop (store (fst (alloc h (clone_st (objs h l)))) (next h) st') l rest = Ok r' /\
    r = (fst r', if chk then snd r' else mv :: snd r').
Proof.
  intros Hl E. cbn [legal_loop] in E. rewrite clone_eq in E. cbn beta iota in E.
  destruct (apply_move (fst (alloc h (clone_st (objs h l)))) (next h) mv) as [h2|e] eqn:A;
    cbn [bind] in E; [|discriminate].
  apply apply_move_inv in A as (st' & Hst & ->).
  rewrite objs_alloc_new, apply_move_st_clone in Hst.
  rewrite objs_store_same in E.
  destruct (in_check st' (opposite (to_move st'))) as [chk|e] eqn:C; cbn [bind] in E; [|discriminate].
  destruct (legal_loop _ l rest) as [r'|e] eqn:L; cbn [bind] in E; [|discriminate].
  inversion E; subst. exists st', chk, r'. auto.
Qed.

(** The loop only writes to the objects it allocates. *)
Lemma legal_loop_frame mvs : forall h l r,
  (l < next h)%nat -> legal_loop h l mvs = Ok r ->
  (next h <= next (fst r))%nat /\ forall k, (k < next h)%nat -> objs (fst r) k = objs h k.
Proof.
  induction mvs as [|mv rest IH]; intros h l r Hl E.
  - inversion E; subst; simpl; split; auto.
  - destruct (legal_loop_step h l mv rest r Hl E) as (st' & chk & r' & _ & _ & L & ->).
    set (h2 := store (fst (alloc h (clone_st (objs h l)))) (next h) st') in L.
    assert (Hn : next h2 = S (next h)) by reflexivity.
    assert (Hk : forall k, (k < next h)%nat -> objs h2 k = objs h k).
    { intros k Hk. unfold h2. rewrite objs_store_other by lia.
      apply objs_alloc_other; lia. }
    destruct (IH h2 l r') as [Hn' Hk']; [lia | exact L |].
    simpl. split; [lia|]. intros k Hk0. rewrite Hk' by lia. now apply Hk.
Qed.

(** Exactly the candidates that pass the check are kept. *)
Lemma legal_loop_mem mvs : forall h l r,
  (l < next h)%nat -> legal_loop h l mvs = Ok r ->
  forall m, In m (snd r) <-> In m mvs /\ keeps (objs h l) m.
Proof.
  induction mvs as [|mv rest IH]; intros h l r Hl E m.
  - inversion E; subst; simpl; tauto.
  - destruct (legal_loop_step h l mv rest r Hl E) as (st' & chk & r' & A & C & L & ->).
    set (h2 := store (fst (alloc h (clone_st (objs h l)))) (next h) st') in L.
    assert (Hl2 : objs h2 l = objs h l).
    { unfold h2. rewrite objs_store_other by lia. apply objs_alloc_other; lia. }
    assert (IH' := IH h2 l r' ltac:(unfold h2; simpl; lia) L m).
    rewrite Hl2 in IH'.
    assert (Kmv : keeps (objs h l) mv <-> chk = false).
    { unfold keeps. split.
      - intros (s & As & Cs). rewrite A in As. inversion As; subst.
        rewrite C in Cs. now inversion Cs.
      - intros ->. eauto. }
    simpl. destruct chk; simpl.
    + rewrite IH'. split.
      * intros [Hin Hk]; auto.
      * intros [[<- | Hin] Hk]; [apply Kmv in Hk; discriminate | auto].
    + rewrite IH'. split.
      * intros [<- | [Hin Hk]]; [split; [auto | now apply Kmv] | auto].
      * intros [[<- | Hin] Hk]; auto.
Qed.

(** The side that just moved is the side to move before the move. *)
Lemma apply_move_st_to_move st m st' :
  apply_move_st st m = Ok st' -> to_move st' = opposite (to_move st).
Proof.
  unfold apply_move_st.
  destruct (py_get (board st) (from_sq m)) as [piece|]; simpl; [|discriminate].
  destruct (py_get (board st) (to_sq m)) as [dest|]; simpl; [|discriminate].
  destruct piece as [p|]; simpl; [|discriminate].
  repeat match goal with
         | |- context [bind ?r _] => destruct r; simpl; [|discriminate]
         end.
  intro E; inversion E; reflexivity.
Qed.

(** The heap holding the position of [Board()] at reference [0]. *)
Definition start_heap : heap := fst (alloc empty_heap (fen_state DEFAULT_FEN)).

(** The move e2e4. *)
Definition e2e4 : Move := mkMove 52 36 None.

(** ** C1 *)

(** C1: every move [generate_legal_moves] returns, applied to (a clone
    of) the position, leaves the side that just moved out of check; the
    function keeps a pseudo-legal move exactly when the king of the
    opposite of the resulting side to move is not attacked. *)
Theorem generate_legal_moves_keeps_king_safe h l r :
  (l < next h)%nat ->
  generate_legal_moves h l = Ok r ->
  exists ps, generate_pseudo_legal_moves (objs h l) = Ok ps /\
  forall m,
    (In m (snd r) <->
       In m ps /\ exists st', apply_move_st (clone_st (objs h l)) m = Ok st' /\
                              in_check st' (opposite (to_move st')) = Ok false) /\
    (In m (snd r) ->
       exists st', apply_move_st (clone_st (objs h l)) m = Ok st' /\
                   in_check st' (to_move (objs h l)) = Ok false).
Proof.
  intros Hl E. unfold generate_legal_moves in E.
  destruct (generate_pseudo_legal_moves (objs h l)) as [ps|e]; cbn [bind] in E; [|discriminate].
  exists ps. split; [reflexivity|]. intro m.
  pose proof (legal_loop_mem ps h l r Hl E m) as M.
  rewrite apply_move_st_clone. split; [exact M|].
  intro Hin. apply M in Hin as [_ (st' & A & C)].
  exists st'. split; [exact A|].
  now rewrite (apply_move_st_to_move _ _ _ A), opposite_involutive in C.
Qed.

Lemma generate_legal_moves_keeps_king_safe_witness :
  (0 < next start_heap)%nat /\
  exists r, generate_legal_moves start_heap O = Ok r /\
  exists ps, generate_pseudo_legal_moves (objs start_heap O) = Ok ps /\
  forall m,
    (In m (snd r) <->
       In m ps /\ exists st', apply_move_st (clone_st (objs start_heap O)) m = Ok st' /\
                              in_check st' (opposite (to_move st')) = Ok false) /\
    (In m (snd r) ->
       exists st', apply_move_st (clone_st (objs start_heap O)) m = Ok st' /\
                   in_check st' (to_move (objs start_heap O)) = Ok false).
Proof.
  split; [vm_compute; lia|].
  destruct (generate_legal_moves start_heap O) as [r|e] eqn:E.
  - exists r. split; [reflexivity|].
    apply (generate_legal_moves_keeps_king_safe start_heap O r); [vm_compute; lia | exact E].
  - vm_compute in E. discriminate E.
Defined.

(** ** C6 *)

(** C6: for the position of [Board()] (the default FEN),
    [generate_legal_moves] returns exactly 20 moves. *)
Theorem starting_position_has_20_legal_moves :
  match board_init empty_heap None with
  | Ok (h, b) =>
      match generate_legal_moves h (b_state b) with
      | Ok r => List.length (snd r) = 20%nat
      | Raise _ => False
      end
  | Raise _ => False
  end.
Proof. vm_compute. reflexivity. Qed.

(** ** C2 *)

(** C2 (counterexample): after [apply_move(state, e2e4)] on the starting
    position, the argument object no longer holds its former value. *)
Lemma apply_move_changes_its_argument :
  match apply_move start_heap O e2e4 with
  | Ok h' => objs h' O <> objs start_heap O
  | Raise _ => False
  end.
Proof. vm_compute. intro H. discriminate H. Qed.

(** C2 (amended): [apply_move] mutates its argument in place: after any
    successful call the object holds the successor position, whose side to
    move is the opposite one, so it always differs from the input, and no
    other object changes; independently, [generate_legal_moves] applies
    candidates to fresh clones and, when it returns, leaves every object that
    existed before the call, its argument included, unchanged. *)
Theorem apply_move_mutates_argument_only h l m :
  (l < next h)%nat ->
  (forall h', apply_move h l m = Ok h' ->
     (exists st', apply_move_st (objs h l) m = Ok st' /\ objs h' l = st' /\
                  to_move st' = opposite (to_move (objs h l)) /\ st' <> objs h l) /\
     (forall k, k <> l -> objs h' k = objs h k)) /\
  (forall r, generate_legal_moves h l = Ok r ->
     forall k, (k < next h)%nat -> objs (fst r) k = objs h k).
Proof.
  intros Hl. split.
  - intros h' A.
    apply apply_move_inv in A as (st' & Hst & ->).
    split.
    + exists st'. rewrite objs_store_same.
      pose proof (apply_move_st_to_move _ _ _ Hst) as T.
      repeat split; auto.
      intro Heq. rewrite Heq in T. destruct (to_move (objs h l)); discriminate T.
    + intros k Hk. now apply objs_store_other.
  - intros r G. unfold generate_legal_moves in G.
    destruct (generate_pseudo_legal_moves (objs h l)) as [ps|e]; cbn [bind] in G; [|discriminate].
    exact (proj2 (legal_loop_frame ps h l r Hl G)).
Qed.

Lemma apply_move_mutates_argument_only_witness :
  (0 < next start_heap)%nat /\
  (forall h', apply_move start_heap O e2e4 = Ok h' ->
     (exists st', apply_move_st (objs start_heap O) e2e4 = Ok st' /\ objs h' O = st' /\
                  to_move st' = opposite (to_move (objs start_heap O)) /\
                  st' <> objs start_heap O) /\
     (forall k, k <> O -> objs h' k = objs start_heap k)) /\
  (forall r, generate_legal_moves start_heap O = Ok r ->
     forall k, (k < next start_heap)%nat -> objs (fst r) k = objs start_heap k).
Proof.
  split; [vm_compute; lia|].
  apply (apply_move_mutates_argument_only start_heap O e2e4). vm_compute; lia.
Defined.

(** ** C7 *)

Lemma move_eqb_refl m : move_eqb m m = true.
Proof.
  destruct m as [f t [c|]]; unfold move_eqb; simpl;
    rewrite !Z.eqb_refl; simpl; try rewrite Ascii.eqb_refl; reflexivity.
Qed.

Lemma existsb_move_eqb_In m ms : In m ms -> existsb (move_eqb m) ms = true.
Proof.
  intro Hin. apply existsb_exists. exists m. split; [exact Hin | apply move_eqb_refl].
Qed.

Lemma same_position_clone st : same_position (clone_st st) st.
Proof. unfold same_position, clone_st; simpl. repeat split. Qed.

(** C7: for a legal move [m] of the session's position, [make_move(m)]
    followed by [undo_move()] succeeds and leaves the session holding a
    position equal in every field (castling rights as a set) to the one
    before, with the same history. *)
Theorem make_move_undo_move_round_trip h b m r :
  (b_state b < next h)%nat ->
  generate_legal_moves h (b_state b) = Ok r ->
  In m (snd r) ->
  exists h2 b2 h3 b3,
    make_move h b m = Ok (h2, b2) /\ undo_move h2 b2 = Ok (h3, b3) /\
    b_history b3 = b_history b /\
    same_position (objs h3 (b_state b3)) (objs h (b_state b)).
Proof.
  intros Hl G Hin.
  pose proof (legal_loop_frame_gen := G).
  unfold generate_legal_moves in legal_loop_frame_gen.
  destruct (generate_pseudo_legal_moves (objs h (b_state b))) as [ps|e];
    cbn [bind] in legal_loop_frame_gen; [|discriminate].
  destruct (legal_loop_frame ps h (b_state b) r Hl legal_loop_frame_gen) as [Hn Hk].
  pose proof (proj1 (legal_loop_mem ps h (b_state b) r Hl legal_loop_frame_gen m) Hin)
    as [_ (st' & A & _)].
  set (l := b_state b) in *.
  set (h1 := fst (alloc (fst r) (clone_st (objs (fst r) l)))).
  assert (Hl1 : objs (fst r) l = objs h l) by (apply Hk; exact Hl).
  assert (Happ : apply_move h1 l m = Ok (store h1 l st')).
  { unfold apply_move, h1. rewrite objs_alloc_other by lia. rewrite Hl1, A. reflexivity. }
  exists (store h1 l st'), (mkBoard l (b_history b ++ [next (fst r)])),
         (store h1 l st'), (mkBoard (next (fst r)) (b_history b)).
  split; [|split; [|split]].
  - unfold make_move. fold l. rewrite G. cbn [bind snd fst].
    rewrite (existsb_move_eqb_In m (snd r) Hin). rewrite clone_eq. cbn beta iota.
    fold h1. rewrite Happ. reflexivity.
  - unfold undo_move. simpl. rewrite rev_app_distr. simpl. rewrite rev_involutive. reflexivity.
  - reflexivity.
  - cbn [b_state]. rewrite objs_store_other by lia. unfold h1. rewrite objs_alloc_new, Hl1.
    apply same_position_clone.
Qed.

Lemma make_move_undo_move_round_trip_witness :
  exists r, generate_legal_moves start_heap O = Ok r /\ In e2e4 (snd r) /\
  exists h2 b2 h3 b3,
    make_move start_heap (mkBoard O []) e2e4 = Ok (h2, b2) /\ undo_move h2 b2 = Ok (h3, b3) /\
    b_history b3 = b_history (mkBoard O []) /\
    same_position (objs h3 (b_state b3)) (objs start_heap (b_state (mkBoard O []))).
Proof.
  destruct (generate_legal_moves start_heap O) as [r|e] eqn:G; [|vm_compute in G; discriminate G].
  assert (Hin : In e2e4 (snd r)).
  { vm_compute in G. injection G as <-. simpl. tauto. }
  exists r. split; [reflexivity|]. split; [exact Hin|].
  apply (make_move_undo_move_round_trip start_heap (mkBoard O []) e2e4 r);
    [vm_compute; lia | exact G | exact Hin].
Defined.

(** ** The fields [apply_move] writes besides the board *)

(** The rights set after the king, rook-move and rook-capture updates. *)
Definition rights_after (st : State) (m : Move) (p : ascii) (dest : option ascii) : list ascii :=
  let rights0 := rights_elems (castling_rights st) in
  let capture := match dest with Some _ => true | None => false end || ep_capture_cond st m p dest in
  let rights1 :=
    if kind_is p "k" then
      match to_move st with
      | W => discard "Q" (discard "K" rights0)
      | B => discard "q" (discard "k" rights0)
      end
    else rights0 in
  let rights2 := if kind_is p "r" then discard_home (from_sq m) rights1 else rights1 in
  if capture then discard_home (to_sq m) rights2 else rights2.

Lemma apply_move_st_inv st m st' :
  apply_move_st st m = Ok st' ->
  exists p dest,
    py_get (board st) (from_sq m) = Ok (Some p) /\
    py_get (board st) (to_sq m) = Ok dest /\
    to_move st' = opposite (to_move st) /\
    castling_rights st' = RStr (rights_string (rights_after st m p dest)) /\
    en_passant st' = (if is_double_push p m then Some (jumped_square m) else None).
Proof.
  unfold apply_move_st.
  destruct (py_get (board st) (from_sq m)) as [piece|] eqn:Ef; simpl; [|discriminate].
  destruct (py_get (board st) (to_sq m)) as [dest|] eqn:Et; simpl; [|discriminate].
  destruct piece as [p|]; simpl; [|discriminate].
  repeat match goal with
         | |- context [bind ?r _] => destruct r; simpl; [|discriminate]
         end.
  intro E; inversion E; subst; clear E.
  exists p, dest. repeat split; reflexivity.
Qed.

(** ** Set lemmas on the rights *)

Lemma mem_discard c d l : mem c (discard d l) = mem c l && negb (Ascii.eqb c d).
Proof.
  induction l as [|x l IH]; simpl; [reflexivity|].
  destruct (Ascii.eqb x d) eqn:Exd; simpl; rewrite IH.
  - apply Ascii.eqb_eq in Exd as ->.
    destruct (Ascii.eqb c d); simpl; [rewrite andb_false_r; reflexivity | reflexivity].
  - destruct (Ascii.eqb c x) eqn:Ecx; simpl; [|reflexivity].
    apply Ascii.eqb_eq in Ecx as ->. now rewrite Exd.
Qed.

Lemma mem_discard_sub c d l : mem c (discard d l) = true -> mem c l = true.
Proof. rewrite mem_discard. now intros [? _]%andb_prop. Qed.

Lemma mem_discard_home_sub c sq l : mem c (discard_home sq l) = true -> mem c l = true.
Proof.
  unfold discard_home.
  destruct (sq =? 56); [apply mem_discard_sub|].
  destruct (sq =? 63); [apply mem_discard_sub|].
  destruct (sq =? 0); [apply mem_discard_sub|].
  destruct (sq =? 7); [apply mem_discard_sub|auto].
Qed.

Lemma mem_discard_home_flag sq f l : home_flag sq = Some f -> mem f (discard_home sq l) = false.
Proof.
  unfold home_flag, discard_home.
  repeat match goal with |- context [if ?b then _ else _] => destruct b end;
    intro E; inversion E; subst; rewrite mem_discard; simpl; apply andb_false_r.
Qed.

Lemma mem_filter_mem c k l : mem c (filter (fun x => mem x l) k) = mem c k && mem c l.
Proof.
  induction k as [|x t IH]; [reflexivity|].
  cbn [filter]. destruct (mem x l) eqn:Ex; unfold mem in *; cbn [existsb]; rewrite IH.
  - destruct (Ascii.eqb c x) eqn:Ecx; [|reflexivity].
    apply Ascii.eqb_eq in Ecx as ->. now rewrite Ex, andb_true_r.
  - destruct (Ascii.eqb c x) eqn:Ecx; [|reflexivity].
    apply Ascii.eqb_eq in Ecx as ->. now rewrite Ex, !andb_false_r.
Qed.

Lemma mem_rights_string c l :
  rights_mem c (RStr (rights_string l)) = mem c (list_ascii_of_string "KQkq") && mem c l.
Proof.
  unfold rights_mem, rights_string. cbn [rights_elems].
  rewrite list_ascii_of_string_of_list_ascii. apply mem_filter_mem.
Qed.

Lemma rights_after_sub st m p dest c :
  mem c (rights_after st m p dest) = true -> mem c (rights_elems (castling_rights st)) = true.
Proof.
  unfold rights_after.
  destruct (_ || _); [intros H; apply mem_discard_home_sub in H | intros H];
  destruct (kind_is p "r"); try apply mem_discard_home_sub in H;
  destruct (kind_is p "k"); try destruct (to_move st);
  repeat apply mem_discard_sub in H; exact H.
Qed.

(** ** C10 *)

(** C10: [apply_move] never adds a castling right: every flag the moved
    position holds was held before the move. *)
Theorem apply_move_castling_rights_shrink st m st' :
  apply_move_st st m = Ok st' ->
  forall c, rights_mem c (castling_rights st') = true -> rights_mem c (castling_rights st) = true.
Proof.
  intros A c H.
  destruct (apply_move_st_inv st m st' A) as (p & dest & _ & _ & _ & Hr & _).
  rewrite Hr, mem_rights_string in H. apply andb_prop in H as [_ H].
  exact (rights_after_sub st m p dest c H).
Qed.

Lemma apply_move_castling_rights_shrink_witness :
  exists st', apply_move_st (objs start_heap O) e2e4 = Ok st' /\
  forall c, rights_mem c (castling_rights st') = true ->
            rights_mem c (castling_rights (objs start_heap O)) = true.
Proof.
  destruct (apply_move_st (objs start_heap O) e2e4) as [st'|e] eqn:A; [|vm_compute in A; discriminate A].
  exists st'. split; [reflexivity|].
  exact (apply_move_castling_rights_shrink (objs start_heap O) e2e4 st' A).
Defined.

(** ** C4 *)

(** C4 (counterexample): a queen leaving a1 keeps the white queenside
    right: the origin test only runs for rook moves. *)
Lemma queen_leaving_a1_keeps_right :
  match apply_move_st (fen_state "4k3/8/8/8/8/8/8/Q3K3 w Q - 0 1") (mkMove 56 48 None) with
  | Ok st' => rights_mem "Q" (castling_rights st') = true
  | Raise _ => False
  end.
Proof. vm_compute. reflexivity. Qed.

Lemma mem_discard_home c x l :
  mem c (discard_home x l) =
  mem c l && negb (match home_flag x with Some d => Ascii.eqb c d | None => false end).
Proof.
  unfold discard_home, home_flag.
  repeat match goal with |- context [if ?b then _ else _] => destruct b end;
    rewrite ?mem_discard; [reflexivity..|]; simpl; now rewrite andb_true_r.
Qed.

Lemma home_flag_cases sq f :
  home_flag sq = Some f ->
  (sq = 56 /\ f = "Q"%char) \/ (sq = 63 /\ f = "K"%char) \/
  (sq = 0 /\ f = "q"%char) \/ (sq = 7 /\ f = "k"%char).
Proof.
  unfold home_flag.
  destruct (Z.eqb_spec sq 56); [intro E; inversion E; auto|].
  destruct (Z.eqb_spec sq 63); [intro E; inversion E; auto|].
  destruct (Z.eqb_spec sq 0); [intro E; inversion E; auto|].
  destruct (Z.eqb_spec sq 7); [intro E; inversion E; auto | discriminate].
Qed.

Lemma home_flag_match sq f x :
  home_flag sq = Some f ->
  match home_flag x with Some d => Ascii.eqb f d | None => false end = (x =? sq).
Proof.
  intro Hf. unfold home_flag.
  destruct (home_flag_cases sq f Hf) as [[-> ->]|[[-> ->]|[[-> ->]|[-> ->]]]];
    destruct (Z.eqb_spec x 56); try (subst; reflexivity);
    destruct (Z.eqb_spec x 63); try (subst; reflexivity);
    destruct (Z.eqb_spec x 0); try (subst; reflexivity);
    destruct (Z.eqb_spec x 7); try (subst; reflexivity);
    symmetry; apply Z.eqb_neq; lia.
Qed.

(** C4 (amended): for a rook home square [sq] (a1, h1, a8, h8) with
    right [f] (['Q'], ['K'], ['q'], ['k']), [apply_move] leaves [f] set
    exactly when it was set before and none of these happened: the moving
    piece is a king and [f] belongs to the side to move; the moving piece is
    a rook leaving [sq]; the move captures (an occupied destination or an
    en-passant capture) on [sq].  In particular a piece other than a rook or
    a king leaving [sq] keeps the right. *)
Theorem apply_move_clears_rook_home_rights st m st' sq f p dest :
  apply_move_st st m = Ok st' ->
  home_flag sq = Some f ->
  py_get (board st) (from_sq m) = Ok (Some p) ->
  py_get (board st) (to_sq m) = Ok dest ->
  rights_mem f (castling_rights st') =
    rights_mem f (castling_rights st) &&
    negb (kind_is p "k" && mem f (match to_move st with W => ["K"; "Q"] | B => ["k"; "q"] end)%char) &&
    negb (kind_is p "r" && (from_sq m =? sq)) &&
    negb ((match dest with Some _ => true | None => false end || ep_capture_cond st m p dest)
          && (to_sq m =? sq)).
Proof.
  intros A Hf Ep Ed.
  destruct (apply_move_st_inv st m st' A) as (p' & dest' & Ep' & Ed' & _ & Hr & _).
  rewrite Ep in Ep'. inversion Ep'; subst p'. rewrite Ed in Ed'. inversion Ed'; subst dest'.
  rewrite Hr, mem_rights_string. unfold rights_after, rights_mem.
  assert (Hk : mem f (list_ascii_of_string "KQkq") = true)
    by (destruct (home_flag_cases sq f Hf) as [[_ ->]|[[_ ->]|[[_ ->]|[_ ->]]]]; reflexivity).
  rewrite Hk, andb_true_l.
  destruct (_ || _); destruct (kind_is p "r"); destruct (kind_is p "k");
    rewrite ?mem_discard_home, ?(home_flag_match sq f _ Hf);
    destruct (to_move st); rewrite ?mem_discard;
    destruct (home_flag_cases sq f Hf) as [[_ ->]|[[_ ->]|[[_ ->]|[_ ->]]]];
    cbn [mem existsb Ascii.eqb Bool.eqb negb andb orb];
    rewrite ?andb_true_r, ?andb_false_r, ?andb_true_l; reflexivity.
Qed.

Lemma apply_move_clears_rook_home_rights_witness :
  exists st',
    apply_move_st (fen_state "r3k2r/8/8/8/8/8/8/R3K2R w KQkq - 0 1") (mkMove 56 0 None) = Ok st' /\
    rights_mem "q" (castling_rights st') = false /\
    rights_mem "Q" (castling_rights st') = false /\
    rights_mem "K" (castling_rights st') = true.
Proof.
  destruct (apply_move_st (fen_state "r3k2r/8/8/8/8/8/8/R3K2R w KQkq - 0 1") (mkMove 56 0 None))
    as [st'|e] eqn:A; [|vm_compute in A; discriminate A].
  exists st'. split; [reflexivity|].
  split; [|split].
  - rewrite (apply_move_clears_rook_home_rights _ _ st' 0 "q" "R" (Some "r"%char) A);
      [vm_compute; reflexivity | reflexivity | vm_compute; reflexivity | vm_compute; reflexivity].
  - rewrite (apply_move_clears_rook_home_rights _ _ st' 56 "Q" "R" (Some "r"%char) A);
      [vm_compute; reflexivity | reflexivity | vm_compute; reflexivity | vm_compute; reflexivity].
  - rewrite (apply_move_clears_rook_home_rights _ _ st' 63 "K" "R" (Some "r"%char) A);
      [vm_compute; reflexivity | reflexivity | vm_compute; reflexivity | vm_compute; reflexivity].
Defined.

(** ** C5 *)

Lemma apply_seq_snoc st ms m :
  apply_seq st (ms ++ [m]) = (let* s := apply_seq st ms in apply_move_st s m).
Proof.
  revert st. induction ms as [|m0 t IH]; intro st; simpl.
  - destruct (apply_move_st st m); reflexivity.
  - destruct (apply_move_st st m0); simpl; [apply IH | reflexivity].
Qed.

(** C5: after [apply_move] the en-passant target is the square the pawn
    jumped over if the move was a pawn double push (a pawn moving two
    rows) and is cleared otherwise; hence in every sequence of applied
    moves, a move [apply_move] treats as an en-passant capture onto [t]
    is only possible right after a double push over [t]: the target a push
    creates is never usable once another ply has been played, unless a
    later push creates it again. *)
Theorem en_passant_target_lasts_one_ply :
  (forall st m st',
     apply_move_st st m = Ok st' ->
     exists p, py_get (board st) (from_sq m) = Ok (Some p) /\
       en_passant st' = (if is_double_push p m then Some (jumped_square m) else None)) /\
  (forall s1 ms m sn mv q dest,
     apply_seq s1 (ms ++ [m]) = Ok sn ->
     ep_capture_cond sn mv q dest = true ->
     exists s p, apply_seq s1 ms = Ok s /\ py_get (board s) (from_sq m) = Ok (Some p) /\
       is_double_push p m = true /\ jumped_square m = to_sq mv).
Proof.
  assert (One : forall st m st',
     apply_move_st st m = Ok st' ->
     exists p, py_get (board st) (from_sq m) = Ok (Some p) /\
       en_passant st' = (if is_double_push p m then Some (jumped_square m) else None)).
  { intros st m st' A.
    destruct (apply_move_st_inv st m st' A) as (p & dest & Ep & _ & _ & _ & He).
    exists p. auto. }
  split; [exact One|].
  intros s1 ms m sn mv q dest E C.
  rewrite apply_seq_snoc in E.
  destruct (apply_seq s1 ms) as [s|e]; cbn [bind] in E; [|discriminate].
  destruct (One s m sn E) as (p & Ep & He).
  unfold ep_capture_cond in C. apply andb_prop in C as [C _]. apply andb_prop in C as [_ C].
  destruct (en_passant sn) as [t|] eqn:Et; [|discriminate C].
  cbn [opt_eqb] in C. apply Z.eqb_eq in C.
  exists s, p. split; [reflexivity|]. split; [exact Ep|].
  destruct (is_double_push p m); [|discriminate He].
  inversion He as [Hj]. split; [reflexivity | rewrite C; symmetry; exact Hj].
Qed.

Lemma en_passant_target_lasts_one_ply_witness :
  exists st', apply_move_st (objs start_heap O) e2e4 = Ok st' /\
  (exists p, py_get (board (objs start_heap O)) (from_sq e2e4) = Ok (Some p) /\
     en_passant st' = (if is_double_push p e2e4 then Some (jumped_square e2e4) else None)) /\
  exists sn, apply_seq (objs start_heap O) ([] ++ [e2e4]) = Ok sn /\
  ep_capture_cond sn (mkMove 35 44 None) "p" None = true /\
  exists s p, apply_seq (objs start_heap O) [] = Ok s /\ py_get (board s) (from_sq e2e4) = Ok (Some p) /\
     is_double_push p e2e4 = true /\ jumped_square e2e4 = to_sq (mkMove 35 44 None).
Proof.
  destruct (apply_move_st (objs start_heap O) e2e4) as [st'|e] eqn:A; [|vm_compute in A; discriminate A].
  exists st'. split; [reflexivity|]. split.
  - exact (proj1 en_passant_target_lasts_one_ply _ _ _ A).
  - exists st'. assert (S : apply_seq (objs start_heap O) ([] ++ [e2e4]) = Ok st')
      by (cbn [apply_seq app]; rewrite A; reflexivity).
    assert (C : ep_capture_cond st' (mkMove 35 44 None) "p" None = true).
    { vm_compute in A. injection A as <-. reflexivity. }
    split; [exact S|]. split; [exact C|].
    exact (proj2 en_passant_target_lasts_one_ply _ [] e2e4 st' _ "p"%char None S C).
Defined.

(** ** C3 *)

(** C3 (code bug): a white pawn reaching the eighth rank with no
    promotion kind makes [apply_move] raise: the conditional expression
    parses as [move.promotion.upper() if white else (move.promotion.lower()
    if move.promotion else piece)], so only the black branch has the
    fallback; a black pawn in the same situation stays an unpromoted pawn. *)
Theorem promotion_without_kind_white_raises :
  apply_move_st (fen_state "8/P7/8/8/8/8/7p/7K w - - 0 1") (mkMove 8 0 None) = Raise AttributeError /\
  match apply_move_st (fen_state "7k/8/8/8/8/8/p6P/7K b - - 0 1") (mkMove 48 56 None) with
  | Ok st' => py_get (board st') 56 = Ok (Some "p"%char)
  | Raise _ => False
  end.
Proof. split; vm_compute; reflexivity. Qed.

(** ** C9 *)

Definition no_white_king_fen : string := "8/1P6/8/8/8/8/8/7k w - a8 0 1".

(** C9 (code bug): without a king of the given color [in_check] is false,
    and [is_checkmate] is false when the side to move has no king; but
    [is_stalemate] on the kingless position [no_white_king_fen] raises,
    because [generate_legal_moves] applies the en-passant candidate b7xa8,
    a white pawn move onto the last rank with no promotion kind (the defect
    of C3). *)
Theorem no_king_terminal_queries :
  (forall st c, king_position st c = None -> in_check st c = Ok false) /\
  (forall h l, king_position (objs h l) (to_move (objs h l)) = None -> is_checkmate h l = Ok false) /\
  king_position (fen_state no_white_king_fen) W = None /\
  to_move (fen_state no_white_king_fen) = W /\
  is_stalemate (fst (alloc empty_heap (fen_state no_white_king_fen))) O = Raise AttributeError.
Proof.
  split; [|split].
  - intros st c H. unfold in_check. now rewrite H.
  - intros h l H. unfold is_checkmate, in_check. now rewrite H.
  - vm_compute. repeat split; reflexivity.
Qed.

Lemma no_king_terminal_queries_witness :
  in_check (fen_state no_white_king_fen) W = Ok false /\
  is_checkmate (fst (alloc empty_heap (fen_state no_white_king_fen))) O = Ok false.
Proof.
  destruct no_king_terminal_queries as (Hc & Hm & Hk & _ & _).
  split.
  - apply Hc. vm_compute. reflexivity.
  - apply Hm. vm_compute. reflexivity.
Defined.

(** ** C8 *)

Lemma str_find_cases s c : (exists k, str_find s c = Ok k) \/ str_find s c = Raise ValueError.
Proof.
  induction s as [|x t IH]; simpl; [right; reflexivity|].
  destruct (Ascii.eqb x c); [left; eauto|].
  destruct IH as [[k ->] | ->]; simpl; eauto.
Qed.

Lemma str_find_ok s c : (exists k, str_find s c = Ok k) <-> mem c (list_ascii_of_string s) = true.
Proof.
  induction s as [|x t IH]; simpl.
  - split; [intros [k E]; discriminate E | discriminate].
  - unfold mem in *. cbn [existsb].
    destruct (Ascii.eqb x c) eqn:Exc.
    + apply Ascii.eqb_eq in Exc as ->. rewrite Ascii.eqb_refl. split; eauto.
    + rewrite Ascii.eqb_sym, Exc. simpl. rewrite <- IH.
      split; intros [k E].
      * destruct (str_find t c) eqn:Et; [eauto | discriminate E].
      * rewrite E. simpl. eauto.
Qed.

Lemma str_find_range s c k : str_find s c = Ok k -> 0 <= k < Z.of_nat (String.length s).
Proof.
  revert k. induction s as [|x t IH]; intros k E; simpl in E; [discriminate|].
  cbn [String.length]. destruct (Ascii.eqb x c).
  - inversion E; lia.
  - destruct (str_find t c) as [k'|] eqn:Et; simpl in E; [|discriminate].
    inversion E; subst. specialize (IH k' eq_refl). lia.
Qed.

(** [int(ch)] of one character. *)
Lemma py_int_char c :
  py_int (String c EmptyString) = if is_digit c then Ok (digit_val c) else Raise ValueError.
Proof.
  destruct c as [[] [] [] [] [] [] [] []]; vm_compute; reflexivity.
Qed.

Lemma ok_inj {A} (a b : A) : Ok a = Ok b -> a = b.
Proof. now intros [=]. Qed.

Lemma square_index_two s c0 c1 rest :
  s = String c0 (String c1 rest) ->
  square_index s = (let* file := str_find FILES c0 in
                    let* d := py_int (String c1 EmptyString) in
                    Ok ((8 - d) * 8 + file)).
Proof. intros ->. reflexivity. Qed.

(** C8 (counterexample): ["e9"] is a square text whose rank digit lies
    outside 1..8, yet [square_index] returns [-4] without an error, and
    [Move.from_uci] takes ['k'] as a promotion letter. *)
Lemma malformed_texts_parse :
  square_index "e9" = Ok (-4) /\ from_uci "a7a8k" = Ok (mkMove 8 0 (Some "k"%char)).
Proof. split; reflexivity. Qed.

(** C8 (amended): [square_index] signals an error exactly when the text
    has fewer than two characters, a first character outside a..h, or a
    second character that is not a decimal digit; the rank digits 9 and 0
    give indices outside 0..63 with no error.  [Move.from_uci] takes any
    fifth character as the promotion letter.  [State.from_fen] signals an
    error when the text does not have exactly six whitespace-separated
    fields, and stores every non-digit character of a placement row as a
    piece. *)
Theorem parsing_validation_is_partial :
  (forall s, (exists z, square_index s = Ok z) <->
     exists c0 c1 rest, s = String c0 (String c1 rest) /\
       mem c0 (list_ascii_of_string FILES) = true /\ is_digit c1 = true) /\
  (forall c0 rest z, square_index (String c0 (String "9" rest)) = Ok z -> z < 0) /\
  (forall c0 rest z, square_index (String c0 (String "0" rest)) = Ok z -> 64 <= z) /\
  (forall uci f t, square_index (substring 0 2 uci) = Ok f ->
     square_index (substring 2 2 uci) = Ok t ->
     from_uci uci = Ok (mkMove f t (String.get 4 uci))) /\
  (forall fen, List.length (split_ws fen) <> 6%nat -> from_fen fen = Raise ValueError) /\
  (forall l, forallb (fun c => negb (is_digit c)) l = true -> fen_row l = Ok (map Some l)).
Proof.
  split; [|split; [|split; [|split; [|split]]]].
  - intro s. split.
    + intros [z E].
      destruct s as [|c0 [|c1 rest]]; [discriminate E| |].
      * unfold square_index in E. cbn [str_get String.get bind] in E.
        destruct (str_find FILES c0); cbn [bind] in E; discriminate E.
      * rewrite (square_index_two _ c0 c1 rest eq_refl) in E.
        destruct (str_find FILES c0) as [k|] eqn:Ef; cbn [bind] in E; [|discriminate E].
        rewrite py_int_char in E. destruct (is_digit c1) eqn:Ed; cbn [bind] in E; [|discriminate E].
        exists c0, c1, rest. split; [reflexivity|]. split; [|exact Ed].
        apply str_find_ok. eauto.
    + intros (c0 & c1 & rest & -> & Hf & Hd).
      rewrite (square_index_two _ c0 c1 rest eq_refl).
      apply str_find_ok in Hf as [k Ef]. rewrite Ef. cbn [bind].
      rewrite py_int_char, Hd. cbn [bind]. eexists; reflexivity.
  - intros c0 rest z E. rewrite (square_index_two _ c0 "9" rest eq_refl) in E.
    destruct (str_find FILES c0) as [k|] eqn:Ef; cbv beta iota delta [bind] in E; [|discriminate E].
    apply str_find_range in Ef. change (Z.of_nat (String.length FILES)) with 8 in Ef.
    assert (D : py_int (String "9" EmptyString) = Ok 9) by reflexivity.
    rewrite D in E. cbv beta iota delta [bind] in E. apply ok_inj in E. subst z. lia.
  - intros c0 rest z E. rewrite (square_index_two _ c0 "0" rest eq_refl) in E.
    destruct (str_find FILES c0) as [k|] eqn:Ef; cbv beta iota delta [bind] in E; [|discriminate E].
    apply str_find_range in Ef. change (Z.of_nat (String.length FILES)) with 8 in Ef.
    assert (D : py_int (String "0" EmptyString) = Ok 0) by reflexivity.
    rewrite D in E. cbv beta iota delta [bind] in E. apply ok_inj in E. subst z. lia.
  - intros uci f t Ef Et. unfold from_uci. rewrite Ef. cbn [bind]. rewrite Et. cbn [bind].
    destruct (String.get 4 uci); reflexivity.
  - intros fen H. unfold from_fen.
    destruct (split_ws fen) as [|a [|b [|c [|d [|e [|f [|g l]]]]]]];
      try reflexivity. exfalso. apply H. reflexivity.
  - induction l as [|a l IH]; intro H; [reflexivity|].
    cbn [forallb] in H. apply andb_prop in H as [Ha Hl].
    cbn [fen_row]. destruct (is_digit a); [discriminate Ha|]. cbn [bind].
    rewrite (IH Hl). reflexivity.
Qed.

Lemma parsing_validation_is_partial_witness :
  (exists z, square_index "e9" = Ok z) /\
  square_index "e9" = Ok (-4) /\ -4 < 0 /\
  from_uci "a7a8k" = Ok (mkMove 8 0 (String.get 4 "a7a8k")) /\
  from_fen "8/8" = Raise ValueError /\
  fen_row (list_ascii_of_string "x") = Ok [Some "x"%char].
Proof.
  destruct parsing_validation_is_partial as (Hs & H9 & _ & Hu & Hf & Hr).
  split; [apply Hs; exists "e"%char, "9"%char, EmptyString; vm_compute; auto|].
  split; [reflexivity|]. split; [apply (H9 "e"%char EmptyString); reflexivity|].
  split; [apply Hu; reflexivity|].
  split; [apply Hf; vm_compute; discriminate|].
  apply (Hr (list_ascii_of_string "x")). reflexivity.
Defined.

(** * Further properties of [rules.py] and [board.py] *)

(** ** Python indices *)

Lemma py_norm_in len i : 0 <= i < Z.of_nat len -> py_norm len i = Some (Z.to_nat i).
Proof.
  intros H. unfold py_norm.
  destruct (Z.leb_spec 0 i), (Z.ltb_spec i (Z.of_nat len)); simpl; try lia; reflexivity.
Qed.

Lemma py_norm_neg len i :
  - Z.of_nat len <= i < 0 -> py_norm len i = Some (Z.to_nat (Z.of_nat len + i)).
Proof.
  intros H. unfold py_norm.
  destruct (Z.leb_spec 0 i); simpl; [lia|].
  destruct (Z.leb_spec (- Z.of_nat len) i), (Z.ltb_spec i 0); simpl; try lia; reflexivity.
Qed.

Lemma py_norm_out len i : i < - Z.of_nat len \/ Z.of_nat len <= i -> py_norm len i = None.
Proof.
  intros H. unfold py_norm.
  destruct (Z.leb_spec 0 i), (Z.ltb_spec i (Z.of_nat len)),
           (Z.leb_spec (- Z.of_nat len) i), (Z.ltb_spec i 0); simpl; try reflexivity; lia.
Qed.

(** ** Square names *)

Lemma index_to_square_table :
  forallb (fun n =>
    match index_to_square (Z.of_nat n) with
    | Ok (String a (String b EmptyString)) =>
        match square_index (String a (String b EmptyString)) with
        | Ok i => i =? Z.of_nat n
        | Raise _ => false
        end
    | _ => false
    end) (seq 0 64) = true.
Proof. vm_compute. reflexivity. Qed.

Lemma index_to_square_square_index_aux idx :
  0 <= idx < 64 ->
  exists a b, index_to_square idx = Ok (String a (String b EmptyString)) /\
              square_index (String a (String b EmptyString)) = Ok idx.
Proof.
  intros H. pose proof index_to_square_table as T.
  rewrite forallb_forall in T. specialize (T (Z.to_nat idx)).
  rewrite in_seq, Z2Nat.id in T by lia. specialize (T ltac:(lia)).
  destruct (index_to_square idx) as [s|e]; [|discriminate].
  destruct s as [|a [|b [|c s]]]; try discriminate.
  destruct (square_index _) as [i|e] eqn:Si; [|discriminate].
  apply Z.eqb_eq in T. subst. eauto.
Qed.

(** X1: [index_to_square] names every board index 0..63 by a two-character
    text that [square_index] maps back to the same index. *)
Theorem index_to_square_round_trip idx :
  0 <= idx < 64 ->
  exists s, index_to_square idx = Ok s /\ String.length s = 2%nat /\ square_index s = Ok idx.
Proof.
  intros H. destruct (index_to_square_square_index_aux idx H) as (a & b & E & S).
  exists (String a (String b EmptyString)). auto.
Qed.

Lemma index_to_square_round_trip_witness :
  exists s, index_to_square 12 = Ok s /\ String.length s = 2%nat /\ square_index s = Ok 12.
Proof. apply index_to_square_round_trip. lia. Defined.

Lemma square_index_table :
  forallb (fun a => forallb (fun b =>
    match square_index (String a (String b EmptyString)) with
    | Ok i =>
        (0 <=? i) && (i <? 64) &&
        match index_to_square i with
        | Ok s => String.eqb s (String a (String b EmptyString))
        | Raise _ => false
        end
    | Raise _ => false
    end) (list_ascii_of_string RANKS)) (list_ascii_of_string FILES) = true.
Proof. vm_compute. reflexivity. Qed.

(** X2: a square name made of a file letter a..h and a rank digit 1..8 is
    mapped by [square_index] to an index in 0..63 that [index_to_square]
    turns back into the same name. *)
Theorem square_index_round_trip f r :
  In f (list_ascii_of_string FILES) -> In r (list_ascii_of_string RANKS) ->
  exists i, square_index (String f (String r EmptyString)) = Ok i /\ 0 <= i < 64 /\
            index_to_square i = Ok (String f (String r EmptyString)).
Proof.
  intros Hf Hr. pose proof square_index_table as T.
  rewrite forallb_forall in T. specialize (T f Hf).
  rewrite forallb_forall in T. specialize (T r Hr).
  destruct (square_index _) as [i|e] eqn:Si; [|discriminate].
  apply andb_prop in T as [T1 T2]. apply andb_prop in T1 as [T0 T1].
  apply Z.leb_le in T0. apply Z.ltb_lt in T1.
  destruct (index_to_square i) as [s|e] eqn:Ei; [|discriminate].
  apply String.eqb_eq in T2. subst. exists i. auto.
Qed.

Lemma square_index_round_trip_witness :
  exists i, square_index "e4"%string = Ok i /\ 0 <= i < 64 /\ index_to_square i = Ok "e4"%string.
Proof. apply square_index_round_trip; simpl; tauto. Defined.

(** X3: [index_to_square] raises [IndexError] on a negative index and on an
    index of 128 or more ([RANKS[7 - idx // 8]] is out of range). *)
Theorem index_to_square_raises idx :
  idx < 0 \/ 128 <= idx -> index_to_square idx = Raise IndexError.
Proof.
  intros H. unfold index_to_square, py_get.
  change (List.length (list_ascii_of_string FILES)) with 8%nat.
  change (List.length (list_ascii_of_string RANKS)) with 8%nat.
  rewrite (py_norm_in 8 (idx mod 8)) by (Z.div_mod_to_equations; lia).
  destruct (nth_error _ _); cbn [bind]; [|reflexivity].
  rewrite py_norm_out by (Z.div_mod_to_equations; lia). reflexivity.
Qed.

Lemma index_to_square_raises_witness :
  (-1 < 0 \/ 128 <= -1) /\ index_to_square (-1) = Raise IndexError.
Proof. split; [lia|]. apply index_to_square_raises. lia. Defined.

(** X4: for an index in 64..127, [RANKS[7 - idx // 8]] takes a negative
    index and wraps around: [index_to_square] raises nothing and names the
    square of [idx - 64]. *)
Theorem index_to_square_wraps idx :
  64 <= idx < 128 -> index_to_square idx = index_to_square (idx - 64).
Proof.
  intros H. unfold index_to_square, py_get.
  change (List.length (list_ascii_of_string FILES)) with 8%nat.
  change (List.length (list_ascii_of_string RANKS)) with 8%nat.
  replace ((idx - 64) mod 8) with (idx mod 8) by (Z.div_mod_to_equations; lia).
  rewrite (py_norm_neg 8 (7 - idx / 8)) by (Z.div_mod_to_equations; lia).
  rewrite (py_norm_in 8 (7 - (idx - 64) / 8)) by (Z.div_mod_to_equations; lia).
  replace (Z.to_nat (Z.of_nat 8 + (7 - idx / 8))) with (Z.to_nat (7 - (idx - 64) / 8))
    by (f_equal; change (Z.of_nat 8) with 8; Z.div_mod_to_equations; lia).
  reflexivity.
Qed.

Lemma index_to_square_wraps_witness :
  (64 <= 100 < 128) /\ index_to_square 100 = index_to_square 36.
Proof. split; [lia|]. apply (index_to_square_wraps 100). lia. Defined.

(** X5: a move whose two squares are board indices 0..63 is written by
    [Move.to_uci] as a text that [Move.from_uci] reads back as the same move,
    promotion included. *)
Theorem to_uci_from_uci_round_trip m :
  0 <= from_sq m < 64 -> 0 <= to_sq m < 64 ->
  exists s, to_uci m = Ok s /\ from_uci s = Ok m.
Proof.
  intros Hf Ht.
  destruct (index_to_square_square_index_aux _ Hf) as (a & b & E1 & S1).
  destruct (index_to_square_square_index_aux _ Ht) as (c & d & E2 & S2).
  unfold to_uci. rewrite E1, E2. cbn [bind].
  eexists; split; [reflexivity|].
  destruct m as [f t pr]; simpl in S1, S2 |- *.
  unfold from_uci. destruct pr; cbn [String.append substring String.get];
    rewrite S1, S2; reflexivity.
Qed.

Lemma to_uci_from_uci_round_trip_witness :
  exists s, to_uci (mkMove 12 4 (Some "q"%char)) = Ok s /\
            from_uci s = Ok (mkMove 12 4 (Some "q"%char)).
Proof. apply to_uci_from_uci_round_trip; simpl; lia. Defined.

(** ** The move counters *)

Lemma apply_move_st_counters st m st' :
  apply_move_st st m = Ok st' ->
  exists p dest,
    py_get (board st) (from_sq m) = Ok (Some p) /\
    py_get (board st) (to_sq m) = Ok dest /\
    halfmove_clock st' =
      (if kind_is p "p" || (match dest with Some _ => true | None => false end
                            || ep_capture_cond st m p dest)
       then 0 else halfmove_clock st + 1) /\
    fullmove_number st' =
      (match to_move st with B => fullmove_number st + 1 | W => fullmove_number st end) /\
    to_move st' = opposite (to_move st).
Proof.
  unfold apply_move_st.
  destruct (py_get (board st) (from_sq m)) as [piece|] eqn:Ef; simpl; [|discriminate].
  destruct (py_get (board st) (to_sq m)) as [dest|] eqn:Et; simpl; [|discriminate].
  destruct piece as [p|]; simpl; [|discriminate].
  repeat match goal with
         | |- context [bind ?r _] => destruct r; simpl; [|discriminate]
         end.
  intro E; inversion E; subst; clear E.
  exists p, dest. repeat split; reflexivity.
Qed.

(** X6: after [apply_move] the halfmove clock is 0 when the moving piece is
    a pawn or the destination was occupied, and the old clock plus one
    otherwise; right after such a reset [is_draw_by_fifty_moves] is
    false. *)
Theorem apply_move_halfmove_clock st m st' p dest :
  apply_move_st st m = Ok st' ->
  py_get (board st) (from_sq m) = Ok (Some p) ->
  py_get (board st) (to_sq m) = Ok dest ->
  halfmove_clock st' =
    (if kind_is p "p" || match dest with Some _ => true | None => false end
     then 0 else halfmove_clock st + 1) /\
  (kind_is p "p" || match dest with Some _ => true | None => false end = true ->
   is_draw_by_fifty_moves st' = false).
Proof.
  intros E Hp Hd.
  destruct (apply_move_st_counters st m st' E) as (p' & dest' & Hp' & Hd' & Hh & _).
  rewrite Hp in Hp'. rewrite Hd in Hd'. inversion Hp'. inversion Hd'. subst p' dest'.
  unfold ep_capture_cond in Hh.
  assert (Hh' : halfmove_clock st' =
    (if kind_is p "p" || match dest with Some _ => true | None => false end
     then 0 else halfmove_clock st + 1)).
  { rewrite Hh. destruct (kind_is p "p"), dest; reflexivity. }
  split; [exact Hh'|].
  intros C. unfold is_draw_by_fifty_moves. rewrite Hh', C. reflexivity.
Qed.

Lemma apply_move_halfmove_clock_witness :
  exists st',
  apply_move_st (fen_state DEFAULT_FEN) e2e4 = Ok st' /\
  py_get (board (fen_state DEFAULT_FEN)) (from_sq e2e4) = Ok (Some "P"%char) /\
  py_get (board (fen_state DEFAULT_FEN)) (to_sq e2e4) = Ok None /\
  halfmove_clock st' =
    (if kind_is "P" "p" || match @None ascii with Some _ => true | None => false end
     then 0 else halfmove_clock (fen_state DEFAULT_FEN) + 1) /\
  (kind_is "P" "p" || match @None ascii with Some _ => true | None => false end = true ->
   is_draw_by_fifty_moves st' = false).
Proof.
  destruct (apply_move_st (fen_state DEFAULT_FEN) e2e4) as [st'|e] eqn:E;
    [|vm_compute in E; discriminate E].
  exists st'. split; [reflexivity|]. split; [vm_compute; reflexivity|].
  split; [vm_compute; reflexivity|].
  apply (apply_move_halfmove_clock (fen_state DEFAULT_FEN) e2e4 st' "P"%char None);
    [exact E | vm_compute; reflexivity | vm_compute; reflexivity].
Defined.

(** X7: over any sequence of [apply_move] calls from a position whose clock
    is not negative, the halfmove clock stays non-negative and grows by at
    most one per move; so [is_draw_by_fifty_moves] turns true only after at
    least [100 - clock] moves. *)
Theorem apply_seq_halfmove_bound st ms st' :
  0 <= halfmove_clock st ->
  apply_seq st ms = Ok st' ->
  0 <= halfmove_clock st' <= halfmove_clock st + Z.of_nat (List.length ms) /\
  (is_draw_by_fifty_moves st' = true -> 100 <= halfmove_clock st + Z.of_nat (List.length ms)).
Proof.
  intros H0 E.
  assert (B : 0 <= halfmove_clock st' <= halfmove_clock st + Z.of_nat (List.length ms)).
  { revert st H0 E. induction ms as [|m t IH]; intros st H0 E.
    - inversion E; subst. simpl. lia.
    - cbn [apply_seq] in E.
      destruct (apply_move_st st m) as [s|e] eqn:A; cbn [bind] in E; [|discriminate].
      destruct (apply_move_st_counters st m s A) as (p & dest & _ & _ & Hh & _).
      assert (Hs : 0 <= halfmove_clock s <= halfmove_clock st + 1)
        by (rewrite Hh; destruct (_ || _); lia).
      specialize (IH s ltac:(lia) E). cbn [List.length]. lia. }
  split; [exact B|].
  unfold is_draw_by_fifty_moves. intros D. apply Z.leb_le in D. lia.
Qed.

Lemma apply_seq_halfmove_bound_witness :
  exists st',
  0 <= halfmove_clock (fen_state DEFAULT_FEN) /\
  apply_seq (fen_state DEFAULT_FEN) [e2e4] = Ok st' /\
  0 <= halfmove_clock st' <= halfmove_clock (fen_state DEFAULT_FEN) + Z.of_nat (List.length [e2e4]) /\
  (is_draw_by_fifty_moves st' = true ->
   100 <= halfmove_clock (fen_state DEFAULT_FEN) + Z.of_nat (List.length [e2e4])).
Proof.
  destruct (apply_seq (fen_state DEFAULT_FEN) [e2e4]) as [st'|e] eqn:E;
    [|vm_compute in E; discriminate E].
  exists st'. split; [vm_compute; discriminate|]. split; [reflexivity|].
  apply (apply_seq_halfmove_bound (fen_state DEFAULT_FEN) [e2e4] st');
    [vm_compute; discriminate | exact E].
Defined.

(** X8: over any sequence of [apply_move] calls the side to move alternates,
    and the fullmove number grows by the number of black moves in the
    sequence: [n // 2] of [n] moves when white starts, [(n + 1) // 2] when
    black starts. *)
Theorem apply_seq_fullmove_number st ms st' :
  apply_seq st ms = Ok st' ->
  to_move st' = (if Nat.even (List.length ms) then to_move st else opposite (to_move st)) /\
  fullmove_number st' = fullmove_number st +
    match to_move st with
    | W => Z.of_nat (List.length ms) / 2
    | B => (Z.of_nat (List.length ms) + 1) / 2
    end.
Proof.
  revert st. induction ms as [|m t IH]; intros st E.
  - inversion E; subst. split; [reflexivity|]. destruct (to_move st'); cbn; lia.
  - cbn [apply_seq] in E.
    destruct (apply_move_st st m) as [s|e] eqn:A; cbn [bind] in E; [|discriminate].
    destruct (apply_move_st_counters st m s A) as (p & dest & _ & _ & _ & Hf & Ht).
    destruct (IH s E) as [T F]. rewrite Ht in T, F. rewrite Hf in F.
    cbn [List.length]. rewrite Nat.even_succ, <- Nat.negb_even.
    split.
    + rewrite T. destruct (Nat.even (List.length t)); simpl;
        [reflexivity | apply opposite_involutive].
    + rewrite F, Nat2Z.inj_succ.
      destruct (to_move st); simpl.
      * rewrite <- Z.add_1_r. reflexivity.
      * replace (Z.succ (Z.of_nat (List.length t)) + 1) with (Z.of_nat (List.length t) + 1 * 2)
          by lia.
        rewrite Z_div_plus_full by lia. lia.
Qed.

Lemma apply_seq_fullmove_number_witness :
  exists st',
  apply_seq (fen_state DEFAULT_FEN) [e2e4] = Ok st' /\
  to_move st' = (if Nat.even (List.length [e2e4]) then to_move (fen_state DEFAULT_FEN)
                 else opposite (to_move (fen_state DEFAULT_FEN))) /\
  fullmove_number st' = fullmove_number (fen_state DEFAULT_FEN) +
    match to_move (fen_state DEFAULT_FEN) with
    | W => Z.of_nat (List.length [e2e4]) / 2
    | B => (Z.of_nat (List.length [e2e4]) + 1) / 2
    end.
Proof.
  destruct (apply_seq (fen_state DEFAULT_FEN) [e2e4]) as [st'|e] eqn:E;
    [|vm_compute in E; discriminate E].
  exists st'. split; [reflexivity|].
  exact (apply_seq_fullmove_number (fen_state DEFAULT_FEN) [e2e4] st' E).
Defined.

(** ** Castling rights after a king move *)

(** X9: when the moving piece is a king, [apply_move] removes both castling
    rights of the side that moved (['K'] and ['Q'] for white, ['k'] and
    ['q'] for black). *)
Theorem apply_move_king_clears_own_rights st m st' p c :
  apply_move_st st m = Ok st' ->
  py_get (board st) (from_sq m) = Ok (Some p) ->
  kind_is p "k" = true ->
  In c (match to_move st with W => ["K"; "Q"] | B => ["k"; "q"] end)%char ->
  rights_mem c (castling_rights st') = false.
Proof.
  intros E Hp Hk Hc.
  destruct (apply_move_st_inv st m st' E) as (p' & dest & Hp' & _ & _ & Hr & _).
  rewrite Hp in Hp'. inversion Hp'. subst p'.
  rewrite Hr, mem_rights_string.
  destruct (mem c (rights_after st m p dest)) eqn:M; [|apply andb_false_r].
  exfalso. unfold rights_after in M. rewrite Hk in M.
  destruct (_ || _); [apply mem_discard_home_sub in M|];
  (destruct (kind_is p "r"); [apply mem_discard_home_sub in M|]);
  destruct (to_move st); rewrite !mem_discard in M;
  simpl in Hc; destruct Hc as [<- | [<- | []]]; simpl in M;
  rewrite ?andb_false_r in M; discriminate M.
Qed.

Lemma apply_move_king_clears_own_rights_witness :
  exists st',
  apply_move_st (fen_state "4k3/8/8/8/8/8/8/4K2R w K - 0 1"%string) (mkMove 60 61 None) = Ok st' /\
  py_get (board (fen_state "4k3/8/8/8/8/8/8/4K2R w K - 0 1"%string)) 60 = Ok (Some "K"%char) /\
  kind_is "K" "k" = true /\
  rights_mem "K" (castling_rights st') = false.
Proof.
  destruct (apply_move_st (fen_state "4k3/8/8/8/8/8/8/4K2R w K - 0 1"%string) (mkMove 60 61 None))
    as [st'|e] eqn:E; [|vm_compute in E; discriminate E].
  exists st'. split; [reflexivity|]. split; [vm_compute; reflexivity|].
  split; [reflexivity|].
  apply (apply_move_king_clears_own_rights _ _ st' "K"%char "K"%char E);
    [vm_compute; reflexivity | reflexivity | simpl; auto].
Defined.

(** ** Material *)

Lemma insufficient_pieces_eq l :
  map lower (filter (fun p => negb (Ascii.eqb (lower p) "k"))
               (flat_map (fun x => match x with Some p => [p] | None => [] end) l)) =
  map (fun x => match x with Some p => lower p | None => " "%char end)
      (filter (fun x => match x with Some p => negb (kind_is p "k") | None => false end) l).
Proof.
  induction l as [|[p|] t IH]; [reflexivity| |exact IH].
  cbn [flat_map app filter]. unfold kind_is.
  destruct (negb (Ascii.eqb (lower p) "k")); cbn [map]; rewrite IH; reflexivity.
Qed.

(** X10: [is_insufficient_material] holds exactly when the pieces other than
    kings (of either colour, kings of both colours being ignored whatever
    their number) are none at all or a single knight or bishop of either
    colour. *)
Theorem is_insufficient_material_iff st :
  let others := filter (fun x => match x with Some p => negb (kind_is p "k") | None => false end)
                       (board st) in
  is_insufficient_material st = true <->
  others = [] \/ exists p, others = [Some p] /\ (kind_is p "n" = true \/ kind_is p "b" = true).
Proof.
  intros others. unfold is_insufficient_material. rewrite insufficient_pieces_eq.
  fold others.
  assert (Hs : forall x, In x others -> exists p, x = Some p).
  { intros x Hx. unfold others in Hx. apply filter_In in Hx as [_ Hx].
    destruct x as [p|]; [eauto | discriminate]. }
  destruct others as [|x [|y t]].
  - cbn. split; auto.
  - destruct (Hs x (or_introl eq_refl)) as [p ->]. cbn [map].
    destruct (in_dec (list_eq_dec ascii_dec) [lower p] [["n"]; ["b"]]%char) as [I|N].
    + split; [intros _|reflexivity]. right. exists p. split; [reflexivity|].
      unfold kind_is. simpl in I.
      destruct I as [I|[I|[]]]; inversion I;
        first [left; reflexivity | right; reflexivity].
    + split; [discriminate|]. intros [D|(q & D & K)]; [discriminate|].
      inversion D; subst q. exfalso. apply N. unfold kind_is in K.
      destruct K as [K|K]; apply Ascii.eqb_eq in K; rewrite K; simpl; auto.
  - cbn [map]. destruct (in_dec _ _ _) as [I|N].
    + exfalso. simpl in I. destruct I as [I|[I|[]]]; discriminate I.
    + split; [discriminate|]. intros [D|(q & D & _)]; discriminate D.
Qed.

(** ** Terminal queries *)

(** X11: a position is never reported both as checkmate and as stalemate:
    [is_checkmate] requires the side to move to be in check and
    [is_stalemate] requires it not to be. *)
Theorem checkmate_and_stalemate_exclusive h l :
  (is_checkmate h l = Ok true -> is_stalemate h l = Ok false) /\
  (is_stalemate h l = Ok true -> is_checkmate h l = Ok false).
Proof.
  unfold is_checkmate, is_stalemate.
  destruct (in_check _ _) as [[|]|e]; cbn [bind negb]; split; intros E;
    try reflexivity; try discriminate E.
Qed.

(** ** The board keeps its size *)

Lemma replace_nth_length {A} (l : list A) k v : List.length (replace_nth l k v) = List.length l.
Proof.
  revert k. induction l as [|x t IH]; intros [|k]; simpl; auto.
Qed.

Lemma py_set_length {A} (l l' : list A) i v : py_set l i v = Ok l' -> List.length l' = List.length l.
Proof.
  unfold py_set. destruct (py_norm _ _); intros E; inversion E. apply replace_nth_length.
Qed.

Lemma apply_move_st_board_length st m st' :
  apply_move_st st m = Ok st' -> List.length (board st') = List.length (board st).
Proof.
  unfold apply_move_st.
  destruct (py_get (board st) (from_sq m)) as [piece|]; cbn [bind]; [|discriminate].
  destruct (py_get (board st) (to_sq m)) as [dest|]; cbn [bind]; [|discriminate].
  destruct piece as [p|]; cbn [bind]; [|discriminate].
  destruct (to_move st), (promotion m); cbn [bind];
  repeat match goal with
         | |- context [if ?c then _ else _] => destruct c; cbn [bind]
         | |- context [bind (py_set ?l ?i ?v) _] =>
             destruct (py_set l i v) eqn:?; cbn [bind]; [|discriminate]
         | |- context [bind (py_get ?l ?i) _] =>
             destruct (py_get l i); cbn [bind]; [|discriminate]
         end;
  intro E; inversion E; subst; cbn [board];
  repeat match goal with H : py_set _ _ _ = Ok _ |- _ => apply py_set_length in H end;
  congruence.
Qed.

(** X12: [apply_move] never changes the number of cells of the board, over
    any sequence of moves: every write is an in-range [board[i] = v]. *)
Theorem apply_seq_board_length st ms st' :
  apply_seq st ms = Ok st' -> List.length (board st') = List.length (board st).
Proof.
  revert st. induction ms as [|m t IH]; intros st E.
  - inversion E; reflexivity.
  - cbn [apply_seq] in E.
    destruct (apply_move_st st m) as [s|e] eqn:A; cbn [bind] in E; [|discriminate].
    rewrite (IH s E). exact (apply_move_st_board_length st m s A).
Qed.

Lemma apply_seq_board_length_witness :
  exists st', apply_seq (fen_state DEFAULT_FEN) [e2e4] = Ok st' /\
              List.length (board st') = List.length (board (fen_state DEFAULT_FEN)).
Proof.
  destruct (apply_seq (fen_state DEFAULT_FEN) [e2e4]) as [st'|e] eqn:E;
    [|vm_compute in E; discriminate E].
  exists st'. split; [reflexivity|]. exact (apply_seq_board_length _ _ _ E).
Defined.

(** ** The direction of the pawn test of [is_square_attacked] *)

(** X13: [is_square_attacked(state, row, col, 'w')] reports the square as
    attacked when a white pawn stands diagonally on row [row - 1], the row
    towards rank 8 (white pawns move and capture towards row 0). *)
Theorem white_pawn_lookup_row_above st row col :
  in_range (row - 1) (col - 1) = true ->
  py_get (board st) ((row - 1) * 8 + (col - 1)) = Ok (Some "P"%char) ->
  is_square_attacked st row col W = Ok true.
Proof.
  intros R G. unfold is_square_attacked. cbn [any_r fst snd].
  replace (row + -1) with (row - 1) by lia. replace (col + -1) with (col - 1) by lia.
  rewrite R. cbn [bind]. rewrite G. reflexivity.
Qed.

Lemma white_pawn_lookup_row_above_witness :
  in_range (4 - 1) (3 - 1) = true /\
  py_get (board (fen_state "4k3/8/8/2P5/8/8/8/4K3 w - - 0 1"%string)) ((4 - 1) * 8 + (3 - 1))
    = Ok (Some "P"%char) /\
  is_square_attacked (fen_state "4k3/8/8/2P5/8/8/8/4K3 w - - 0 1"%string) 4 3 W = Ok true.
Proof.
  split; [reflexivity|]. split; [vm_compute; reflexivity|].
  apply white_pawn_lookup_row_above; [reflexivity | vm_compute; reflexivity].
Defined.

(** X14: on a board holding nothing but a white pawn on [(row + 1, col - 1)],
    the square from which a white pawn captures on [(row, col)],
    [is_square_attacked(state, row, col, 'w')] is false. *)
Theorem white_pawn_capture_square_not_attacked st row col :
  0 <= row < 7 -> 1 <= col < 8 ->
  board st = lone_board ((row + 1) * 8 + (col - 1)) "P" ->
  is_square_attacked st row col W = Ok false.
Proof.
  intros Hr Hc Hb. destruct st as [b tm cr ep hm fm]. cbn [board] in Hb. subst b.
  assert (A : forall r c : nat, (r < 7)%nat -> (1 <= c < 8)%nat ->
    is_square_attacked
      (mkState (lone_board ((Z.of_nat r + 1) * 8 + (Z.of_nat c - 1)) "P") tm cr ep hm fm)
      (Z.of_nat r) (Z.of_nat c) W = Ok false).
  { intros r c Hr' Hc'.
    do 7 (destruct r as [|r];
      [do 8 (destruct c as [|c]; [try lia; vm_compute; reflexivity|]); lia|]).
    lia. }
  specialize (A (Z.to_nat row) (Z.to_nat col) ltac:(lia) ltac:(lia)).
  rewrite !Z2Nat.id in A by lia. exact A.
Qed.

Lemma white_pawn_capture_square_not_attacked_witness :
  (0 <= 4 < 7) /\ (1 <= 3 < 8) /\
  board (mkState (lone_board ((4 + 1) * 8 + (3 - 1)) "P") W (RSet []) None 0 1) =
    lone_board ((4 + 1) * 8 + (3 - 1)) "P" /\
  is_square_attacked (mkState (lone_board ((4 + 1) * 8 + (3 - 1)) "P") W (RSet []) None 0 1)
    4 3 W = Ok false.
Proof.
  split; [lia|]. split; [lia|]. split; [reflexivity|].
  apply white_pawn_capture_square_not_attacked; [lia | lia | reflexivity].
Defined.

(** ** The shape of the generated moves *)

(** Every move a computation returns, if it returns, satisfies [P]. *)
Definition all_ok (P : Move -> Prop) (r : result (list Move)) : Prop :=
  match r with Ok ms => Forall P ms | Raise _ => True end.

Lemma all_ok_bind_list P (r : result (list Move)) f :
  all_ok P r -> (forall x, Forall P x -> all_ok P (f x)) -> all_ok P (bind r f).
Proof. destruct r; simpl; auto. Qed.

Lemma all_ok_bind_any {A} P (r : result A) f :
  (forall x, all_ok P (f x)) -> all_ok P (bind r f).
Proof. destruct r; simpl; auto. Qed.

Lemma all_ok_concat {A} P (f : A -> result (list Move)) l :
  (forall x, In x l -> all_ok P (f x)) -> all_ok P (concat_r f l).
Proof.
  induction l as [|x t IH]; intros H; simpl; [constructor|].
  apply all_ok_bind_list; [apply H; now left|]. intros a Ha.
  apply all_ok_bind_list; [apply IH; intros y Hy; apply H; now right|]. intros b Hb.
  simpl. apply Forall_app; auto.
Qed.

Lemma in_range_true r c : in_range r c = true -> 0 <= r < 8 /\ 0 <= c < 8.
Proof.
  unfold in_range. intros H.
  repeat match goal with H : _ && _ = true |- _ => apply andb_prop in H as [? ?] end.
  repeat match goal with
         | H : (_ <=? _) = true |- _ => apply Z.leb_le in H
         | H : (_ <? _) = true |- _ => apply Z.ltb_lt in H
         end.
  lia.
Qed.

(** A move from [idx] to a board index. *)
Definition mv_ok (idx : Z) (m : Move) : Prop := from_sq m = idx /\ 0 <= to_sq m < 64.

Lemma mv_ok_plain idx r c : 0 <= r < 8 -> 0 <= c < 8 -> mv_ok idx (plain idx (r * 8 + c)).
Proof. intros Hr Hc. unfold mv_ok, plain; simpl. split; [reflexivity | lia]. Qed.

Lemma mv_ok_promos idx r c : 0 <= r < 8 -> 0 <= c < 8 -> Forall (mv_ok idx) (promos idx (r * 8 + c)).
Proof.
  intros Hr Hc. unfold promos. simpl.
  repeat constructor; simpl; lia.
Qed.

Lemma jump_move_ok st color idx row col d : all_ok (mv_ok idx) (jump_move st color idx row col d).
Proof.
  unfold jump_move. destruct (in_range _ _) eqn:R; [|constructor].
  apply in_range_true in R as [Hr Hc].
  apply all_ok_bind_any. intros [t|]; simpl;
    [destruct (negb _)|]; repeat constructor; apply mv_ok_plain; auto.
Qed.

Lemma slide_moves_ok st color idx dr dc fuel : forall r c,
  all_ok (mv_ok idx) (slide_moves st color idx dr dc fuel r c).
Proof.
  induction fuel as [|fuel IH]; intros r c; simpl; [constructor|].
  destruct (in_range r c) eqn:R; [|constructor].
  apply in_range_true in R as [Hr Hc].
  apply all_ok_bind_any. intros [t|].
  - simpl. destruct (negb _); repeat constructor; apply mv_ok_plain; auto.
  - apply all_ok_bind_list; [apply IH|]. intros rest Hrest. simpl.
    constructor; [apply mv_ok_plain|]; auto.
Qed.

Lemma slider_moves_ok st color idx row col offs :
  all_ok (mv_ok idx) (slider_moves st color idx row col offs).
Proof. apply all_ok_concat. intros. apply slide_moves_ok. Qed.

Lemma castle_move_ok st color idx row flag empties safe rook_col rook dest_col :
  0 <= row < 8 -> 0 <= dest_col < 8 ->
  all_ok (mv_ok idx) (castle_move st color idx row flag empties safe rook_col rook dest_col).
Proof.
  intros Hr Hd. unfold castle_move.
  destruct (rights_mem _ _); [|constructor].
  apply all_ok_bind_any. intros [|]; [|constructor].
  apply all_ok_bind_any. intros [|]; simpl; [|constructor].
  constructor; [apply mv_ok_plain; auto | constructor].
Qed.

Lemma king_moves_ok st color idx row col : all_ok (mv_ok idx) (king_moves st color idx row col).
Proof.
  unfold king_moves.
  apply all_ok_bind_list; [apply all_ok_concat; intros; apply jump_move_ok|]. intros s Hs.
  apply all_ok_bind_list.
  { destruct (_ && _ && _); [|constructor].
    apply all_ok_bind_list; [apply castle_move_ok; lia|]. intros k Hk.
    apply all_ok_bind_list; [apply castle_move_ok; lia|]. intros q Hq.
    simpl. apply Forall_app; auto. }
  intros w Hw.
  apply all_ok_bind_list.
  { destruct (_ && _ && _); [|constructor].
    apply all_ok_bind_list; [apply castle_move_ok; lia|]. intros k Hk.
    apply all_ok_bind_list; [apply castle_move_ok; lia|]. intros q Hq.
    simpl. apply Forall_app; auto. }
  intros b Hb. simpl. apply Forall_app; split; [|apply Forall_app]; auto.
Qed.

Lemma pawn_moves_ok st color idx row col :
  0 <= col < 8 -> all_ok (mv_ok idx) (pawn_moves st color idx row col).
Proof.
  intros Hc. unfold pawn_moves.
  apply all_ok_bind_list.
  - unfold and_r at 1. cbn [bind].
    destruct ((0 <=? _) && (_ <? 8)) eqn:R; [|constructor].
    apply andb_prop in R as [R1 R2]. apply Z.leb_le in R1. apply Z.ltb_lt in R2.
    apply all_ok_bind_any. intros [|]; [|constructor].
    unfold and_r. cbn [bind].
    destruct (Z.eqb_spec row (match color with W => 6 | B => 1 end)) as [Hs|Hs].
    + apply all_ok_bind_any. intros dbl. simpl. apply Forall_app. split.
      * destruct (_ =? _); [apply mv_ok_promos; auto | constructor; [apply mv_ok_plain; auto | constructor]].
      * destruct dbl; [|constructor]. constructor; [|constructor].
        subst row. destruct color; apply mv_ok_plain; lia.
    + simpl. rewrite app_nil_r.
      destruct (_ =? _); [apply mv_ok_promos; auto | constructor; [apply mv_ok_plain; auto | constructor]].
  - intros fwd Hf. apply all_ok_bind_list.
    + apply all_ok_concat. intros dc _.
      destruct (in_range _ _) eqn:R; [|constructor].
      apply in_range_true in R as [Hr Hc'].
      apply all_ok_bind_any. intros [t|].
      * destruct (negb _).
        -- simpl. destruct (_ =? _); [apply mv_ok_promos; auto | constructor; [apply mv_ok_plain; auto | constructor]].
        -- simpl. destruct (opt_eqb _ _ _); repeat constructor; apply mv_ok_plain; auto.
      * simpl. destruct (opt_eqb _ _ _); repeat constructor; apply mv_ok_plain; auto.
    + intros caps Hcaps. simpl. apply Forall_app; auto.
Qed.

Lemma piece_moves_ok st color idx p :
  all_ok (mv_ok idx) (piece_moves st color idx p).
Proof.
  unfold piece_moves.
  assert (Hc : 0 <= idx mod 8 < 8) by (apply Z.mod_pos_bound; lia).
  destruct (kind_is p "p"); [apply pawn_moves_ok; exact Hc|].
  destruct (kind_is p "n"); [apply all_ok_concat; intros; apply jump_move_ok|].
  destruct (kind_is p "b"); [apply slider_moves_ok|].
  destruct (kind_is p "r"); [apply slider_moves_ok|].
  destruct (kind_is p "q"); [apply slider_moves_ok|].
  destruct (kind_is p "k"); [apply king_moves_ok | constructor].
Qed.

(** A move of the loop: it starts on a cell of [cells] holding a piece of
    [color] and ends on a board index. *)
Definition loop_ok (color : color) (cells : list (option ascii)) (idx : Z) (m : Move) : Prop :=
  exists k p, nth_error cells k = Some (Some p) /\ color_of p = color /\
              from_sq m = idx + Z.of_nat k /\ 0 <= to_sq m < 64.

Lemma pseudo_loop_ok st color cells : forall idx,
  all_ok (loop_ok color cells idx) (pseudo_loop st color cells idx).
Proof.
  induction cells as [|cell rest IH]; intros idx; simpl; [constructor|].
  apply all_ok_bind_list.
  - destruct cell as [p|]; [|constructor].
    destruct (color_eqb (color_of p) color) eqn:Ec; [|constructor].
    pose proof (piece_moves_ok st color idx p) as H.
    destruct (piece_moves st color idx p); simpl in *; [|exact I].
    eapply Forall_impl; [|exact H]. intros m [Hf Ht].
    exists O, p. split; [reflexivity|]. split; [destruct (color_of p), color; simpl in Ec; congruence|].
    split; [simpl; lia | exact Ht].
  - intros here Hh. pose proof (IH (idx + 1)) as Hm.
    destruct (pseudo_loop st color rest (idx + 1)) as [more|e]; simpl in *; [|exact I].
    apply Forall_app. split; [exact Hh|].
    eapply Forall_impl; [|exact Hm]. intros m (k & q & Hk & Hq & Hf & Ht).
    exists (S k), q. split; [exact Hk|]. split; [exact Hq|]. split; [lia | exact Ht].
Qed.

Lemma py_get_nth_error {A} (l : list A) k x : nth_error l k = Some x -> py_get l (Z.of_nat k) = Ok x.
Proof.
  intros H. assert (Hk : (k < List.length l)%nat) by (apply nth_error_Some; congruence).
  unfold py_get. rewrite py_norm_in by lia. rewrite Nat2Z.id, H. reflexivity.
Qed.

Lemma generate_pseudo_legal_moves_shape_aux st ms :
  generate_pseudo_legal_moves st = Ok ms ->
  forall m, In m ms ->
  (exists p, py_get (board st) (from_sq m) = Ok (Some p) /\ color_of p = to_move st) /\
  0 <= to_sq m < 64.
Proof.
  intros E m Hm. pose proof (pseudo_loop_ok st (to_move st) (board st) 0) as H.
  unfold generate_pseudo_legal_moves in E. rewrite E in H. simpl in H.
  rewrite Forall_forall in H. destruct (H m Hm) as (k & p & Hk & Hc & Hf & Ht).
  split; [|exact Ht]. exists p. split; [|exact Hc].
  rewrite Hf, Z.add_0_l. apply py_get_nth_error. exact Hk.
Qed.

(** X15: every move [generate_pseudo_legal_moves] returns starts on a cell
    holding a piece of the side to move and ends on a board index 0..63. *)
Theorem generate_pseudo_legal_moves_shape st ms :
  generate_pseudo_legal_moves st = Ok ms ->
  forall m, In m ms ->
  (exists p, py_get (board st) (from_sq m) = Ok (Some p) /\ color_of p = to_move st) /\
  0 <= to_sq m < 64.
Proof. apply generate_pseudo_legal_moves_shape_aux. Qed.

Lemma generate_pseudo_legal_moves_shape_witness :
  exists ms, generate_pseudo_legal_moves (fen_state DEFAULT_FEN) = Ok ms /\
  forall m, In m ms ->
  (exists p, py_get (board (fen_state DEFAULT_FEN)) (from_sq m) = Ok (Some p) /\
             color_of p = to_move (fen_state DEFAULT_FEN)) /\
  0 <= to_sq m < 64.
Proof.
  destruct (generate_pseudo_legal_moves (fen_state DEFAULT_FEN)) as [ms|e] eqn:E;
    [|vm_compute in E; discriminate E].
  exists ms. split; [reflexivity|]. exact (generate_pseudo_legal_moves_shape _ _ E).
Defined.

(** X16: every move [generate_legal_moves] returns starts on a cell holding a
    piece of the side to move, ends on a board index 0..63, and can be
    applied: [apply_move] raises nothing on it and leaves the mover's king
    out of check. *)
Theorem generate_legal_moves_shape h l r :
  (l < next h)%nat ->
  generate_legal_moves h l = Ok r ->
  forall m, In m (snd r) ->
  (exists p, py_get (board (objs h l)) (from_sq m) = Ok (Some p) /\
             color_of p = to_move (objs h l)) /\
  0 <= to_sq m < 64 /\
  exists st', apply_move_st (objs h l) m = Ok st' /\ in_check st' (to_move (objs h l)) = Ok false.
Proof.
  intros Hl E m Hm. unfold generate_legal_moves in E.
  destruct (generate_pseudo_legal_moves (objs h l)) as [ps|e] eqn:P; cbn [bind] in E; [|discriminate].
  apply (legal_loop_mem ps h l r Hl E m) in Hm as [Hin (st' & A & C)].
  destruct (generate_pseudo_legal_moves_shape_aux _ _ P m Hin) as [Hp Ht].
  split; [exact Hp|]. split; [exact Ht|]. exists st'. split; [exact A|].
  now rewrite (apply_move_st_to_move _ _ _ A), opposite_involutive in C.
Qed.

Lemma generate_legal_moves_shape_witness :
  exists r, (0 < next start_heap)%nat /\ generate_legal_moves start_heap O = Ok r /\
  forall m, In m (snd r) ->
  (exists p, py_get (board (objs start_heap O)) (from_sq m) = Ok (Some p) /\
             color_of p = to_move (objs start_heap O)) /\
  0 <= to_sq m < 64 /\
  exists st', apply_move_st (objs start_heap O) m = Ok st' /\
              in_check st' (to_move (objs start_heap O)) = Ok false.
Proof.
  destruct (generate_legal_moves start_heap O) as [r|e] eqn:E;
    [|vm_compute in E; discriminate E].
  exists r. split; [vm_compute; lia|]. split; [reflexivity|].
  apply (generate_legal_moves_shape start_heap O r); [vm_compute; lia | exact E].
Defined.

(** ** Sequences of [Board.make_move] and [Board.undo_move] *)

Lemma make_move_frame h b m h' b' :
  (b_state b < next h)%nat ->
  make_move h b m = Ok (h', b') ->
  exists c, b' = mkBoard (b_state b) (b_history b ++ [c]) /\
    (next h <= c)%nat /\ (c < next h')%nat /\ (next h <= next h')%nat /\
    objs h' c = clone_st (objs h (b_state b)) /\
    forall k, (k < next h)%nat -> k <> b_state b -> objs h' k = objs h k.
Proof.
  intros Hl E. unfold make_move in E.
  destruct (generate_legal_moves h (b_state b)) as [r|e] eqn:G; cbn [bind] in E; [|discriminate].
  unfold generate_legal_moves in G.
  destruct (generate_pseudo_legal_moves (objs h (b_state b))) as [ps|e];
    cbn [bind] in G; [|discriminate].
  destruct (legal_loop_frame ps h (b_state b) r Hl G) as [Hn Hk].
  destruct (existsb (move_eqb m) (snd r)); [|discriminate].
  rewrite clone_eq in E. cbn beta iota in E.
  set (h1 := fst (alloc (fst r) (clone_st (objs (fst r) (b_state b))))) in E.
  destruct (apply_move h1 (b_state b) m) as [h2|e] eqn:A; cbn [bind] in E; [|discriminate].
  inversion E; subst h' b'. apply apply_move_inv in A as (st' & _ & ->).
  exists (next (fst r)). split; [reflexivity|]. split; [lia|].
  assert (Hn1 : next (store h1 (b_state b) st') = S (next (fst r))) by reflexivity.
  rewrite Hn1. split; [lia|]. split; [lia|]. split.
  - rewrite objs_store_other by lia. unfold h1. rewrite objs_alloc_new.
    f_equal. apply Hk. exact Hl.
  - intros k Hk1 Hk2. rewrite objs_store_other by exact Hk2. unfold h1.
    rewrite objs_alloc_other by lia. apply Hk. exact Hk1.
Qed.

Lemma same_position_refl st : same_position st st.
Proof. unfold same_position. repeat split. Qed.

Lemma make_moves_undo_n_aux ms : forall h b h1 b1,
  NoDup (b_state b :: b_history b) ->
  Forall (fun k => (k < next h)%nat) (b_state b :: b_history b) ->
  make_moves h b ms = Ok (h1, b1) ->
  NoDup (b_state b1 :: b_history b1) /\
  Forall (fun k => (k < next h1)%nat) (b_state b1 :: b_history b1) /\
  (forall k, In k (b_history b) -> objs h1 k = objs h k) /\
  exists b2, undo_n h1 b1 (List.length ms) = Ok (h1, b2) /\
    b_history b2 = b_history b /\ same_position (objs h1 (b_state b2)) (objs h (b_state b)).
Proof.
  induction ms as [|m t IH]; intros h b h1 b1 Hd Hf E.
  - inversion E; subst. split; [exact Hd|]. split; [exact Hf|]. split; [auto|].
    exists b1. split; [reflexivity|]. split; [reflexivity | apply same_position_refl].
  - cbn [make_moves] in E.
    destruct (make_move h b m) as [[hm bm]|e] eqn:M; cbn [bind fst snd] in E; [|discriminate].
    inversion Hf as [|? ? Hs Hhist]; subst.
    destruct (make_move_frame h b m hm bm Hs M) as (c & -> & Hc1 & Hc2 & Hn & Hobj & Hfr).
    rewrite Forall_forall in Hhist.
    assert (Hd' : NoDup (b_state b :: b_history b ++ [c])).
    { change (NoDup ((b_state b :: b_history b) ++ [c])). apply NoDup_app; [exact Hd | constructor; [intros [] | constructor] |].
      intros x Hx Hc. destruct Hc as [Hc|[]]. subst x.
      destruct Hx as [Hx|Hx]; [lia|]. specialize (Hhist c Hx). lia. }
    assert (Hf' : Forall (fun k => (k < next hm)%nat) (b_state b :: b_history b ++ [c])).
    { constructor; [lia|]. apply Forall_forall. intros x Hx. apply in_app_or in Hx as [Hx|[<-|[]]].
      - specialize (Hhist x Hx). lia.
      - exact Hc2. }
    destruct (IH hm (mkBoard (b_state b) (b_history b ++ [c])) h1 b1 Hd' Hf' E) as (Hd1 & Hf1 & Hk1 & b2 & U & Hb2 & _).
    split; [exact Hd1|]. split; [exact Hf1|]. split.
    + intros k Hk. rewrite Hk1 by (apply in_or_app; now left).
      apply Hfr; [now apply Hhist|]. intros ->. inversion Hd as [|? ? Hn0]; subst. contradiction.
    + exists (mkBoard c (b_history b)). cbn [List.length undo_n]. rewrite U. cbn [bind fst snd].
      unfold undo_move. rewrite Hb2. cbn [b_history]. rewrite rev_app_distr. cbn [rev app].
      rewrite rev_involutive. split; [reflexivity|]. split; [reflexivity|].
      cbn [b_state]. rewrite Hk1 by (apply in_or_app; right; now left).
      rewrite Hobj. apply same_position_clone.
Qed.

(** X17: on a [Board] whose current position and history are distinct
    objects (as after [Board.__init__]), any sequence of successful
    [make_move] calls followed by as many [undo_move] calls succeeds and
    restores the history and a position equal in every field (castling
    rights as a set) to the one before the sequence. *)
Theorem make_moves_undo_all h b ms h1 b1 :
  NoDup (b_state b :: b_history b) ->
  Forall (fun k => (k < next h)%nat) (b_state b :: b_history b) ->
  make_moves h b ms = Ok (h1, b1) ->
  exists b2, undo_n h1 b1 (List.length ms) = Ok (h1, b2) /\
    b_history b2 = b_history b /\ same_position (objs h1 (b_state b2)) (objs h (b_state b)).
Proof.
  intros Hd Hf E. destruct (make_moves_undo_n_aux ms h b h1 b1 Hd Hf E) as (_ & _ & _ & H).
  exact H.
Qed.

Lemma make_moves_undo_all_witness :
  exists h1 b1,
  NoDup (b_state (mkBoard O []) :: b_history (mkBoard O [])) /\
  Forall (fun k => (k < next start_heap)%nat) (b_state (mkBoard O []) :: b_history (mkBoard O [])) /\
  make_moves start_heap (mkBoard O []) [e2e4; mkMove 12 28 None] = Ok (h1, b1) /\
  exists b2, undo_n h1 b1 2 = Ok (h1, b2) /\
    b_history b2 = [] /\ same_position (objs h1 (b_state b2)) (objs start_heap O).
Proof.
  destruct (make_moves start_heap (mkBoard O []) [e2e4; mkMove 12 28 None]) as [[h1 b1]|e] eqn:E;
    [|vm_compute in E; discriminate E].
  exists h1, b1.
  assert (Hd : NoDup (b_state (mkBoard O []) :: b_history (mkBoard O [])))
    by (constructor; [intros [] | constructor]).
  assert (Hf : Forall (fun k => (k < next start_heap)%nat) (b_state (mkBoard O []) :: b_history (mkBoard O [])))
    by (constructor; [vm_compute; lia | constructor]).
  split; [exact Hd|]. split; [exact Hf|]. split; [reflexivity|].
  exact (make_moves_undo_all start_heap (mkBoard O []) [e2e4; mkMove 12 28 None] h1 b1 Hd Hf E).
Defined.

(** ** Board writes of [apply_move] *)

Lemma nth_error_replace_nth_same {A} (l : list A) k v :
  (k < List.length l)%nat -> nth_error (replace_nth l k v) k = Some v.
Proof.
  revert k. induction l as [|x t IH]; intros [|k] H; simpl in *; try lia; auto.
  apply IH. lia.
Qed.

Lemma nth_error_replace_nth_other {A} (l : list A) k j v :
  j <> k -> nth_error (replace_nth l k v) j = nth_error l j.
Proof.
  revert k j. induction l as [|x t IH]; intros [|k] [|j] H; simpl; auto; try congruence.
Qed.

Lemma py_norm_some_lt len i k : py_norm len i = Some k -> (k < len)%nat.
Proof.
  unfold py_norm.
  destruct (Z.leb_spec 0 i), (Z.ltb_spec i (Z.of_nat len)); simpl;
    [intros E; inversion E; lia| | |];
  destruct (Z.leb_spec (- Z.of_nat len) i), (Z.ltb_spec i 0); simpl;
    intros E; inversion E; lia.
Qed.

Lemma py_set_get_either {A} (l l' : list A) i v j :
  py_set l i v = Ok l' -> 0 <= j < Z.of_nat (List.length l) ->
  py_get l' j = Ok v \/ py_get l' j = py_get l j.
Proof.
  unfold py_set. destruct (py_norm _ i) as [k|] eqn:N; intros E Hj; inversion E; subst l'.
  apply py_norm_some_lt in N.
  unfold py_get. rewrite replace_nth_length, py_norm_in by lia.
  destruct (Nat.eq_dec (Z.to_nat j) k) as [->|D].
  - left. rewrite nth_error_replace_nth_same by lia. reflexivity.
  - right. rewrite nth_error_replace_nth_other by exact D. reflexivity.
Qed.

Lemma py_set_get_same {A} (l l' : list A) i v :
  py_set l i v = Ok l' -> 0 <= i < Z.of_nat (List.length l) -> py_get l' i = Ok v.
Proof.
  unfold py_set. intros E Hi. rewrite py_norm_in in E by lia. inversion E; subst l'.
  unfold py_get. rewrite replace_nth_length, py_norm_in by lia.
  rewrite nth_error_replace_nth_same by lia. reflexivity.
Qed.

Lemma py_set_get_other {A} (l l' : list A) i v j :
  py_set l i v = Ok l' -> 0 <= i < Z.of_nat (List.length l) ->
  0 <= j < Z.of_nat (List.length l) -> i <> j -> py_get l' j = py_get l j.
Proof.
  unfold py_set. intros E Hi Hj D. rewrite py_norm_in in E by lia. inversion E; subst l'.
  unfold py_get. rewrite replace_nth_length, !py_norm_in by lia.
  rewrite nth_error_replace_nth_other by lia. reflexivity.
Qed.

Lemma kind_is_k_not_p p : kind_is p "k" = true -> kind_is p "p" = false.
Proof. unfold kind_is. intros H. apply Ascii.eqb_eq in H. rewrite H. reflexivity. Qed.

Lemma kind_is_p_not_k p : kind_is p "p" = true -> kind_is p "k" = false.
Proof. unfold kind_is. intros H. apply Ascii.eqb_eq in H. rewrite H. reflexivity. Qed.

(** X18: Castling in [apply_move]: when the king of the side to move goes from
    column 4 to column 6 (or 2) of its row, the rook of column 7 (or 0) is
    moved to column 5 (or 3) and its old square is emptied; the king stands
    on the destination and its origin is empty. *)
Lemma castling_moves_rook :
  forall st m st' p row dc rf rt,
  apply_move_st st m = Ok st' ->
  List.length (board st) = 64%nat ->
  py_get (board st) (from_sq m) = Ok (Some p) ->
  kind_is p "k" = true ->
  0 <= row < 8 ->
  from_sq m = row * 8 + 4 ->
  In (dc, rf, rt) [(6, 7, 5); (2, 0, 3)] ->
  to_sq m = row * 8 + dc ->
  py_get (board st') (row * 8 + rt) = py_get (board st) (row * 8 + rf) /\
  py_get (board st') (row * 8 + rf) = Ok None /\
  py_get (board st') (to_sq m) = Ok (Some p) /\
  py_get (board st') (from_sq m) = Ok None.
Proof.
  intros st m st' p row dc rf rt E Hlen Hp Hk Hrow Hf Hd Ht.
  assert (Hkp := kind_is_k_not_p p Hk).
  unfold apply_move_st in E. rewrite Hp in E. cbn [bind] in E.
  destruct (py_get (board st) (to_sq m)) as [dest|] eqn:Hdest; cbn [bind] in E; [|discriminate].
  unfold ep_capture_cond in E. rewrite Hkp in E. cbn [andb bind] in E.
  destruct (py_set (board st) (from_sq m) None) as [b2|] eqn:S2; cbn [bind] in E; [|discriminate].
  destruct (py_set b2 (to_sq m) (Some p)) as [b3|] eqn:S3; cbn [bind] in E; [|discriminate].
  rewrite Hk in E. cbn [andb bind] in E.
  rewrite Hf, Ht in E.
  assert (C1 : (row * 8 + dc) mod 8 = dc) by (destruct Hd as [H|[H|[]]]; inversion H; Z.div_mod_to_equations; lia).
  assert (C2 : (row * 8 + 4) mod 8 = 4) by (Z.div_mod_to_equations; lia).
  assert (C3 : (row * 8 + 4) / 8 = row) by (Z.div_mod_to_equations; lia).
  rewrite C1, C2, C3 in E.
  assert (Hr : forall i, 0 <= i < 64 -> 0 <= i < Z.of_nat (List.length (board st))) by lia.
  destruct Hd as [H|[H|[]]]; inversion H; subst dc rf rt; clear H;
    [change (Z.abs (6 - 4) =? 2) with true in E; change (6 =? 6) with true in E
    |change (Z.abs (2 - 4) =? 2) with true in E; change (2 =? 6) with false in E];
    cbn [bind] in E;
    (destruct (py_get b3 _) as [rk|] eqn:G; cbn [bind] in E; [|discriminate]);
    (destruct (py_set b3 _ rk) as [b4|] eqn:S4; cbn [bind] in E; [|discriminate]);
    (destruct (py_set b4 _ None) as [b5|] eqn:S5; cbn [bind] in E; [|discriminate]);
    inversion E; subst st'; cbn [board];
    pose proof (py_set_length _ _ _ _ S2) as L2;
    pose proof (py_set_length _ _ _ _ S3) as L3;
    pose proof (py_set_length _ _ _ _ S4) as L4;
    rewrite Hf in S2 |- *; rewrite Ht in S3 |- *;
    ((split; [|split; [|split]]);
    [ rewrite (py_set_get_other _ _ _ _ _ S5) by lia;
      rewrite (py_set_get_same _ _ _ _ S4) by lia; rewrite <- G;
      rewrite (py_set_get_other _ _ _ _ _ S3) by lia;
      apply (py_set_get_other _ _ _ _ _ S2); lia
    | apply (py_set_get_same _ _ _ _ S5); lia
    | rewrite (py_set_get_other _ _ _ _ _ S5) by lia;
      rewrite (py_set_get_other _ _ _ _ _ S4) by lia;
      apply (py_set_get_same _ _ _ _ S3); lia
    | rewrite (py_set_get_other _ _ _ _ _ S5) by lia;
      rewrite (py_set_get_other _ _ _ _ _ S4) by lia;
      rewrite (py_set_get_other _ _ _ _ _ S3) by lia;
      apply (py_set_get_same _ _ _ _ S2); lia ]).
Qed.

Lemma castling_moves_rook_witness :
  exists st',
  apply_move_st (fen_state "4k3/8/8/8/8/8/8/4K2R w K - 0 1"%string) (mkMove 60 62 None) = Ok st' /\
  py_get (board st') (7 * 8 + 5) = Ok (Some "R"%char) /\
  py_get (board st') (7 * 8 + 7) = Ok None.
Proof.
  destruct (apply_move_st (fen_state "4k3/8/8/8/8/8/8/4K2R w K - 0 1"%string) (mkMove 60 62 None))
    as [st'|e] eqn:E; [|vm_compute in E; discriminate E].
  exists st'. split; [reflexivity|].
  destruct (castling_moves_rook _ _ st' "K"%char 7 6 7 5 E) as [H1 [H2 _]];
    [vm_compute; reflexivity | vm_compute; reflexivity | reflexivity | lia
    | reflexivity | simpl; auto | reflexivity |].
  split; [rewrite H1; vm_compute; reflexivity | exact H2].
Defined.

(** X19: En passant in [apply_move]: when a pawn of the side to move goes to the
    en passant square, which is empty, the square one row behind the
    destination (row + 1 for white, row - 1 for black) is emptied, and the
    halfmove clock is reset to 0. *)
Lemma en_passant_capture_clears_pawn :
  forall st m st' p,
  apply_move_st st m = Ok st' ->
  List.length (board st) = 64%nat ->
  py_get (board st) (from_sq m) = Ok (Some p) ->
  kind_is p "p" = true ->
  en_passant st = Some (to_sq m) ->
  py_get (board st) (to_sq m) = Ok None ->
  0 <= to_sq m < 64 ->
  0 <= (match to_move st with W => to_sq m + 8 | B => to_sq m - 8 end) < 64 ->
  py_get (board st') (match to_move st with W => to_sq m + 8 | B => to_sq m - 8 end) = Ok None /\
  halfmove_clock st' = 0.
Proof.
  intros st m st' p E Hlen Hp Hkp Hep Hdest Ht Hb.
  assert (Hkk := kind_is_p_not_k p Hkp).
  assert (Hc : ep_capture_cond st m p None = true).
  { unfold ep_capture_cond. rewrite Hkp, Hep. cbn. rewrite Z.eqb_refl. reflexivity. }
  unfold apply_move_st in E. rewrite Hp, Hdest in E. cbn [bind] in E.
  rewrite Hc in E.
  destruct (to_move st) eqn:Tm;
    [replace ((to_sq m / 8 + 1) * 8 + to_sq m mod 8) with (to_sq m + 8) in E by (Z.div_mod_to_equations; lia)
    |replace ((to_sq m / 8 - 1) * 8 + to_sq m mod 8) with (to_sq m - 8) in E by (Z.div_mod_to_equations; lia)];
    (destruct (py_set (board st) _ None) as [b1|] eqn:S1; cbn [bind] in E; [|discriminate]);
    (destruct (py_set b1 (from_sq m) None) as [b2|] eqn:S2; cbn [bind] in E; [|discriminate]);
    (destruct (py_set b2 (to_sq m) (Some p)) as [b3|] eqn:S3; cbn [bind] in E; [|discriminate]);
    rewrite Hkp in E; cbn [bind] in E;
    rewrite Hkk in E; cbn [andb bind] in E;
    pose proof (py_set_length _ _ _ _ S1) as L1;
    pose proof (py_set_length _ _ _ _ S2) as L2;
    pose proof (py_set_length _ _ _ _ S3) as L3;
    (assert (B1 : py_get b1 (match to_move st with W => to_sq m + 8 | B => to_sq m - 8 end) = Ok None)
       by (rewrite Tm in *; apply (py_set_get_same _ _ _ _ S1); lia));
    (assert (B2 : py_get b2 (match to_move st with W => to_sq m + 8 | B => to_sq m - 8 end) = Ok None)
       by (destruct (py_set_get_either b1 b2 (from_sq m) None
                       (match to_move st with W => to_sq m + 8 | B => to_sq m - 8 end) S2)
             as [X|X]; [rewrite Tm in *; lia | exact X | rewrite X; exact B1]));
    (assert (B3 : py_get b3 (match to_move st with W => to_sq m + 8 | B => to_sq m - 8 end) = Ok None)
       by (rewrite Tm in *; rewrite (py_set_get_other _ _ _ _ _ S3) by lia; exact B2));
    (match type of E with context [if Z.eqb (to_sq m / 8) ?k then _ else _] => destruct (Z.eqb (to_sq m / 8) k) end;
     cbn [bind] in E;
     [ destruct (promotion m); cbn [bind] in E; try discriminate E;
       (destruct (py_set b3 (to_sq m) _) as [b4|] eqn:S4; cbn [bind] in E; [|discriminate]);
       pose proof (py_set_length _ _ _ _ S4) as L4;
       apply ok_inj in E; subst st'; cbn [board halfmove_clock]; (split; [|reflexivity]);
       rewrite Tm in *; rewrite (py_set_get_other _ _ _ _ _ S4) by lia; exact B3
     | apply ok_inj in E; subst st'; cbn [board halfmove_clock]; split; [rewrite Tm in B3; exact B3 | reflexivity]]).
Qed.

Lemma en_passant_capture_clears_pawn_witness :
  exists st',
  apply_move_st (fen_state "4k3/8/8/3pP3/8/8/8/4K3 w - d6 0 1"%string) (mkMove 28 19 None) = Ok st' /\
  py_get (board (fen_state "4k3/8/8/3pP3/8/8/8/4K3 w - d6 0 1"%string)) 27 = Ok (Some "p"%char) /\
  py_get (board st') 27 = Ok None /\ halfmove_clock st' = 0.
Proof.
  destruct (apply_move_st (fen_state "4k3/8/8/3pP3/8/8/8/4K3 w - d6 0 1"%string) (mkMove 28 19 None))
    as [st'|e] eqn:E; [|vm_compute in E; discriminate E].
  exists st'. split; [reflexivity|]. split; [vm_compute; reflexivity|].
  apply (en_passant_capture_clears_pawn _ _ st' "P"%char E);
    [vm_compute; reflexivity | vm_compute; reflexivity | reflexivity
    | vm_compute; reflexivity | vm_compute; reflexivity | cbn; lia
    | change (to_move (fen_state "4k3/8/8/3pP3/8/8/8/4K3 w - d6 0 1"%string)) with W; cbn; lia].
Defined.
